(** * AKChat WebSocket server: session / room coordination core

    Shallow embedding of [src/index.ts] (the [ws.on("message")] and
    [ws.on("close")] handlers together with the two process-wide maps
    [activeClients] and [roomUserMap]) and the properties of the
    specification that concern them.

    Conventions of the embedding:
    - a frame is the outcome of [JSON.parse(raw)]: either a parse failure
      or a JSON value;
    - JavaScript numbers are [NaN], the two infinities, or a finite
      double, the latter carried by its exact rational value;
    - the Prisma client, the sockets and the string-to-number builtin of
      the runtime lie outside the source: they are fields of an
      environment [Env] that every theorem quantifies over;
    - one handler run is evaluated against one snapshot of the maps; what
      it hands to [ws.send] and to the store is collected in a log. *)

From Stdlib Require Import ZArith QArith Qcanon.
From stdpp Require Import base option list gmap sets strings countable.

Local Open Scope string_scope.
Local Open Scope list_scope.

(** ** JavaScript values *)

Inductive number : Type :=
  | NaN
  | Infinity (negative : bool)
  | Finite (q : Qc).

Definition int (z : Z) : number := Finite (Q2Qc (inject_Z z)).

Global Instance number_eq_dec : EqDecision number.
Proof. solve_decision. Defined.

Global Instance number_countable : Countable number.
Proof.
  refine (inj_countable'
    (λ n, match n with
          | NaN => inl ()
          | Infinity b => inr (inl b)
          | Finite q => inr (inr q)
          end)
    (λ s, match s with
          | inl _ => NaN
          | inr (inl b) => Infinity b
          | inr (inr q) => Finite q
          end) _).
  by intros [].
Defined.

(** [a === b] on two numbers: [NaN] is different from everything. *)
Definition number_strict_eq (a b : number) : bool :=
  match a with
  | NaN => false
  | _ => bool_decide (a = b)
  end.


Local Unset Elimination Schemes.
Inductive JsVal : Type :=
  | JUndefined
  | JNull
  | JBool (b : bool)
  | JNum (n : number)
  | JStr (s : string)
  | JArr (items : list JsVal)
  | JObj (fields : list (string * JsVal)).
Local Set Elimination Schemes.

(** ToBoolean. *)
Definition truthy (v : JsVal) : bool :=
  match v with
  | JUndefined | JNull => false
  | JBool b => b
  | JNum NaN => false
  | JNum (Finite q) => negb (bool_decide (q = Q2Qc 0))
  | JNum (Infinity _) => true
  | JStr s => negb (bool_decide (s = ""))
  | JArr _ | JObj _ => true
  end.

(** The own property [k] of an object built by [JSON.parse]: of two
    members with the same name the later one wins. *)
Definition own_property (k : string) (fields : list (string * JsVal)) : option JsVal :=
  fold_left (λ found kv, if bool_decide (kv.1 = k) then Some kv.2 else found) fields None.

(** [v === s] for a string literal [s]. *)
Definition is_string (v : JsVal) (s : string) : bool :=
  match v with
  | JStr s' => bool_decide (s' = s)
  | _ => false
  end.

(** ** The data held by the server *)

Definition WebSocket := nat.

(** Values of [activeClients]: [{ userId: number; roomId: string }]. *)
Record Session : Type := mkSession { userId : number; roomId : string }.

(** [activeClients] is a JavaScript [Map]: it iterates in insertion
    order and [set] on a present key keeps the key's position. *)
Fixpoint map_get (ws : WebSocket) (m : list (WebSocket * Session)) : option Session :=
  match m with
  | [] => None
  | (k, v) :: rest => if bool_decide (k = ws) then Some v else map_get ws rest
  end.

Fixpoint map_set (ws : WebSocket) (v : Session) (m : list (WebSocket * Session))
  : list (WebSocket * Session) :=
  match m with
  | [] => [(ws, v)]
  | (k, old) :: rest =>
      if bool_decide (k = ws) then (k, v) :: rest else (k, old) :: map_set ws v rest
  end.

Fixpoint map_delete (ws : WebSocket) (m : list (WebSocket * Session))
  : list (WebSocket * Session) :=
  match m with
  | [] => []
  | (k, v) :: rest =>
      if bool_decide (k = ws) then rest else (k, v) :: map_delete ws rest
  end.

Record State : Type := mkState {
  activeClients : list (WebSocket * Session);
  roomUserMap : gmap string (gset number)
}.

Definition initial : State := {| activeClients := []; roomUserMap := ∅ |}.

(** ** The collaborators *)

Record User : Type := mkUser { user_id : number }.
Record Room : Type := mkRoom { room_id : string; users : list User }.

(** The [data] argument of [prisma.chat.create]. *)
Record ChatData : Type := mkChatData {
  message : JsVal;
  createdAt : Z;
  chat_userId : number;
  chat_roomId : JsVal
}.

(** The row that [prisma.chat.create] resolves to. *)
Record Chat : Type := mkChat { chat_id : Z; chat_row : ChatData }.

Inductive DbResult (A : Type) : Type :=
  | Resolved (a : A)
  | Rejected.
Arguments Resolved {A} a.
Arguments Rejected {A}.

Definition OPEN : nat := 1.

Record Env : Type := mkEnv {
  (** [prisma.roomId.findUnique({ where: { id } , include: { users } })] *)
  findUnique : string → DbResult (option Room);
  (** [prisma.chat.create({ data })] *)
  create : ChatData → DbResult Chat;
  (** [client.readyState] *)
  readyState : WebSocket → nat;
  (** whether [client.send] throws *)
  sendThrows : WebSocket → bool;
  (** [new Date()] *)
  now : Z;
  (** the runtime's StringToNumber *)
  StringToNumber : string → number;
  (** the runtime's ToPrimitive on an array or a plain object *)
  ObjectToPrimitive : JsVal → string
}.

(** [Number(v)]. *)
Definition Number (env : Env) (v : JsVal) : number :=
  match v with
  | JUndefined => NaN
  | JNull => int 0
  | JBool b => if b then int 1 else int 0
  | JNum n => n
  | JStr s => StringToNumber env s
  | JArr _ | JObj _ => StringToNumber env (ObjectToPrimitive env v)
  end.

(** Line 64: [room.users.some((u) => u.id === numericUserId)]. *)
Definition isAuthorized (room : Room) (numericUserId : number) : bool :=
  existsb (λ u, number_strict_eq (user_id u) numericUserId) (users room).

(** ** What a handler does to the outside *)

Inductive Frame : Type :=
  | ErrorFrame (msg : string)
  | RegisterSuccess (room : string) (user : number)
  | MessageSent (chat : Chat)
  | NewMessage (chat : Chat).

Inductive Event : Type :=
  | Sent (to : WebSocket) (f : Frame)
  | SendFailed (to : WebSocket) (f : Frame)
  | FindRoom (id : JsVal) (threw : bool)
  | CreateChat (data : ChatData) (threw : bool).

(** ** A monad for handler bodies

    A computation reads and writes the two maps, appends to the log and
    completes normally, by [return] out of the handler, or by throwing. *)

Inductive Completion (A : Type) : Type :=
  | Normal (a : A)
  | Return
  | Throw.
Arguments Normal {A} a.
Arguments Return {A}.
Arguments Throw {A}.

Definition M (A : Type) : Type := State → Completion A * State * list Event.

Definition ret {A} (a : A) : M A := λ st, (Normal a, st, []).
Definition return_ {A} : M A := λ st, (Return, st, []).
Definition throw {A} : M A := λ st, (Throw, st, []).
Definition emit (e : Event) : M unit := λ st, (Normal (), st, [e]).
Definition get_state : M State := λ st, (Normal st, st, []).
Definition put_state (st : State) : M unit := λ _, (Normal (), st, []).

Definition bind {A B} (m : M A) (k : A → M B) : M B :=
  λ st,
    match m st with
    | (Normal a, st1, l1) =>
        match k a st1 with
        | (c, st2, l2) => (c, st2, l1 ++ l2)
        end
    | (Return, st1, l1) => (Return, st1, l1)
    | (Throw, st1, l1) => (Throw, st1, l1)
    end.

(** [try { body } catch (err) { handler }] *)
Definition try_catch {A} (body handler : M A) : M A :=
  λ st,
    match body st with
    | (Throw, st1, l1) =>
        match handler st1 with
        | (c, st2, l2) => (c, st2, l1 ++ l2)
        end
    | done => done
    end.

Declare Scope handler_scope.
Delimit Scope handler_scope with handler.
Notation "x <- m ;; k" := (bind m (λ x, k))
  (at level 100, m at next level, right associativity) : handler_scope.
Notation "m ;;; k" := (bind m (λ _, k))
  (at level 100, right associativity) : handler_scope.

(** ** The handlers of [src/index.ts] *)

Section Handlers.
Context (env : Env).
Local Open Scope handler_scope.

(** [ws.send(JSON.stringify(f))] *)
Definition send (ws : WebSocket) (f : Frame) : M unit :=
  if sendThrows env ws then (emit (SendFailed ws f) ;;; throw) else emit (Sent ws f).

(** [JSON.parse(raw)], given its outcome. *)
Definition JSON_parse (data : option JsVal) : M JsVal :=
  match data with
  | Some v => ret v
  | None => throw
  end.

(** [v.k] for the member names the handler reads ([type], [roomId],
    [userId], [user_id], [text]): a TypeError on [null], the own
    property on an object, [undefined] on everything else. *)
Definition get (v : JsVal) (k : string) : M JsVal :=
  match v with
  | JUndefined | JNull => throw
  | JObj fields => ret (default JUndefined (own_property k fields))
  | _ => ret JUndefined
  end.

(** [await prisma.roomId.findUnique({ where: { id } })]; the column is a
    string, and the client rejects any other argument. *)
Definition prisma_findUnique (id : JsVal) : M (option Room) :=
  match id with
  | JStr s =>
      match findUnique env s with
      | Resolved room => (emit (FindRoom id false) ;;; ret room)
      | Rejected => (emit (FindRoom id true) ;;; throw)
      end
  | _ => (emit (FindRoom id true) ;;; throw)
  end.

(** [await prisma.chat.create({ data })] *)
Definition prisma_create (data : ChatData) : M Chat :=
  match create env data with
  | Resolved chat => (emit (CreateChat data false) ;;; ret chat)
  | Rejected => (emit (CreateChat data true) ;;; throw)
  end.

(** Lines 71-76: the synchronous tail of a successful registration. *)
Definition commit_registration (ws : WebSocket) (numericUserId : number) (roomId : string)
  : M unit :=
  st <- get_state ;;
  let clients := map_set ws {| userId := numericUserId; roomId := roomId |} (activeClients st) in
  let rooms :=
    if bool_decide (is_Some (roomUserMap st !! roomId)) then roomUserMap st
    else <[roomId := ∅]> (roomUserMap st) in
  match rooms !! roomId with
  | Some members =>
      put_state {| activeClients := clients;
                   roomUserMap := <[roomId := {[numericUserId]} ∪ members]> rooms |}
  | None => throw
  end.

(** Lines 32-85: [if (parsed.type === "register") { ... return; }] *)
Definition register (ws : WebSocket) (parsed : JsVal) : M unit :=
  roomIdV <- get parsed "roomId" ;;
  userIdV <- get parsed "userId" ;;
  if negb (truthy roomIdV) || negb (truthy userIdV) then
    (send ws (ErrorFrame "Missing roomId or userId") ;;; return_)
  else
    let numericUserId := Number env userIdV in
    room <- try_catch (prisma_findUnique roomIdV)
              (send ws (ErrorFrame "Database error during room lookup") ;;; return_) ;;
    match room with
    | None => (send ws (ErrorFrame "Room not found") ;;; return_)
    | Some room =>
        if negb (isAuthorized room numericUserId) then
          (send ws (ErrorFrame "Unauthorized user or room") ;;; return_)
        else
          match roomIdV with
          | JStr roomId =>
              (commit_registration ws numericUserId roomId ;;;
               try_catch (send ws (RegisterSuccess roomId numericUserId)) (ret ()) ;;;
               return_)
          | _ => throw
          end
    end.

(** [roomUserMap.get(roomId)] for whatever value the frame carried. *)
Definition rooms_get (id : JsVal) (rooms : gmap string (gset number)) : option (gset number) :=
  match id with
  | JStr s => rooms !! s
  | _ => None
  end.

(** Lines 144-157: the loop over [activeClients.entries()]. *)
Fixpoint fanout (ws : WebSocket) (roomIdV : JsVal) (recipients : gset number) (chat : Chat)
    (entries : list (WebSocket * Session)) : M unit :=
  match entries with
  | [] => ret ()
  | (client, meta) :: rest =>
      ((if negb (bool_decide (client = ws))
           && is_string roomIdV (roomId meta)
           && bool_decide (userId meta ∈ recipients)
           && bool_decide (readyState env client = OPEN)
        then try_catch (send client (NewMessage chat)) (ret ())
        else ret ()) ;;;
       fanout ws roomIdV recipients chat rest)
  end.

(** Lines 88-159: [if (parsed.type === "message") { ... }] *)
Definition relay (ws : WebSocket) (parsed : JsVal) : M unit :=
  st <- get_state ;;
  match map_get ws (activeClients st) with
  | None => (send ws (ErrorFrame "Client not registered") ;;; return_)
  | Some clientMeta =>
      roomIdV <- get parsed "roomId" ;;
      user_idV <- get parsed "user_id" ;;
      text <- get parsed "text" ;;
      let numericUserId := Number env user_idV in
      if negb (is_string roomIdV (roomId clientMeta))
         || negb (number_strict_eq numericUserId (userId clientMeta)) then
        (send ws (ErrorFrame "Invalid room or user context") ;;; return_)
      else
        room <- try_catch (prisma_findUnique roomIdV)
                  (send ws (ErrorFrame "Database error during room validation") ;;; return_) ;;
        match room with
        | None => (send ws (ErrorFrame "Room not found") ;;; return_)
        | Some _ =>
            chat <- try_catch
                      (prisma_create {| message := text; createdAt := now env;
                                        chat_userId := numericUserId; chat_roomId := roomIdV |})
                      (send ws (ErrorFrame "Failed to save message") ;;; return_) ;;
            (try_catch (send ws (MessageSent chat)) (ret ()) ;;;
             st' <- get_state ;;
             match rooms_get roomIdV (roomUserMap st') with
             | Some recipients => fanout ws roomIdV recipients chat (activeClients st')
             | None => ret ()
             end)
        end
  end.

(** Lines 15-168: [ws.on("message", async (data) => { try { ... } catch { ... } })] *)
Definition onMessage (ws : WebSocket) (data : option JsVal) : M unit :=
  try_catch
    (parsed <- try_catch (JSON_parse data)
                 (send ws (ErrorFrame "Invalid JSON format") ;;; return_) ;;
     ty <- get parsed "type" ;;
     (if is_string ty "register" then register ws parsed else ret ()) ;;;
     ty' <- get parsed "type" ;;
     (if is_string ty' "message" then relay ws parsed else ret ()))
    (try_catch (send ws (ErrorFrame "Unexpected server error")) (ret ())).

(** Lines 170-184: [ws.on("close", () => { ... })] *)
Definition onClose (ws : WebSocket) (st : State) : State :=
  let rooms :=
    match map_get ws (activeClients st) with
    | Some meta =>
        match roomUserMap st !! roomId meta with
        | Some roomSet =>
            let roomSet' := roomSet ∖ {[userId meta]} in
            if bool_decide (size roomSet' = 0)
            then delete (roomId meta) (roomUserMap st)
            else <[roomId meta := roomSet']> (roomUserMap st)
        | None => roomUserMap st
        end
    | None => roomUserMap st
    end in
  {| activeClients := map_delete ws (activeClients st); roomUserMap := rooms |}.

End Handlers.

(** ** The earlier handler kept beside [src/index.ts]

    The repository also holds an earlier revision of the message handler.
    It differs from the one above in its error paths: [JSON.parse] and the
    store calls rely on the outer [catch], a register frame that fails
    the presence check is dropped without a reply, a missing room is
    answered like an unauthorized user, and no [send] is guarded, the one
    in the outer [catch] included. *)

Module Earlier.
Section Handlers.
Context (env : Env).
Local Open Scope handler_scope.

Definition register (ws : WebSocket) (parsed : JsVal) : M unit :=
  roomIdV <- get parsed "roomId" ;;
  userIdV <- get parsed "userId" ;;
  if negb (truthy roomIdV) || negb (truthy userIdV) then return_
  else
    let numericUserId := Number env userIdV in
    room <- prisma_findUnique env roomIdV ;;
    let authorized :=
      match room with
      | Some room => isAuthorized room numericUserId
      | None => false
      end in
    if negb authorized then
      (send env ws (ErrorFrame "Unauthorized user or room") ;;; return_)
    else
      match roomIdV with
      | JStr roomId =>
          (commit_registration ws numericUserId roomId ;;;
           send env ws (RegisterSuccess roomId numericUserId) ;;;
           return_)
      | _ => throw
      end.

Fixpoint fanout (ws : WebSocket) (roomIdV : JsVal) (recipients : gset number) (chat : Chat)
    (entries : list (WebSocket * Session)) : M unit :=
  match entries with
  | [] => ret ()
  | (client, meta) :: rest =>
      ((if negb (bool_decide (client = ws))
           && is_string roomIdV (roomId meta)
           && bool_decide (userId meta ∈ recipients)
           && bool_decide (readyState env client = OPEN)
        then send env client (NewMessage chat)
        else ret ()) ;;;
       fanout ws roomIdV recipients chat rest)
  end.

Definition relay (ws : WebSocket) (parsed : JsVal) : M unit :=
  st <- get_state ;;
  match map_get ws (activeClients st) with
  | None => (send env ws (ErrorFrame "Client not registered") ;;; return_)
  | Some clientMeta =>
      roomIdV <- get parsed "roomId" ;;
      user_idV <- get parsed "user_id" ;;
      text <- get parsed "text" ;;
      let numericUserId := Number env user_idV in
      if negb (is_string roomIdV (roomId clientMeta))
         || negb (number_strict_eq numericUserId (userId clientMeta)) then
        (send env ws (ErrorFrame "Invalid room or user context") ;;; return_)
      else
        room <- prisma_findUnique env roomIdV ;;
        match room with
        | None => (send env ws (ErrorFrame "Room not found") ;;; return_)
        | Some _ =>
            chat <- prisma_create env
                      {| message := text; createdAt := now env;
                         chat_userId := numericUserId; chat_roomId := roomIdV |} ;;
            (send env ws (MessageSent chat) ;;;
             st' <- get_state ;;
             match rooms_get roomIdV (roomUserMap st') with
             | Some recipients => fanout ws roomIdV recipients chat (activeClients st')
             | None => ret ()
             end)
        end
  end.

Definition onMessage (ws : WebSocket) (data : option JsVal) : M unit :=
  try_catch
    (parsed <- JSON_parse data ;;
     ty <- get parsed "type" ;;
     (if is_string ty "register" then register ws parsed else ret ()) ;;;
     ty' <- get parsed "type" ;;
     (if is_string ty' "message" then relay ws parsed else ret ()))
    (send env ws (ErrorFrame "Server error")).

End Handlers.
End Earlier.

(** ** Observations on a handler run *)

(** [v.k] where the access cannot throw. *)
Definition field (v : JsVal) (k : string) : JsVal :=
  match v with
  | JObj fields => default JUndefined (own_property k fields)
  | _ => JUndefined
  end.

Definition completion {A} (r : Completion A * State * list Event) : Completion A := r.1.1.
Definition state_after {A} (r : Completion A * State * list Event) : State := r.1.2.
Definition log {A} (r : Completion A * State * list Event) : list Event := r.2.

(** The exception left the handler (the promise of the async callback
    is rejected). *)
Definition escaped {A} (r : Completion A * State * list Event) : bool :=
  match completion r with
  | Throw => true
  | _ => false
  end.

(** Frames that reached a socket, in order. *)
Definition delivered (l : list Event) : list (WebSocket * Frame) :=
  omap (λ e, match e with Sent to f => Some (to, f) | _ => None end) l.

(** Frames handed to [send], whether or not the call threw. *)
Definition attempted (l : list Event) : list (WebSocket * Frame) :=
  omap (λ e, match e with
             | Sent to f | SendFailed to f => Some (to, f)
             | _ => None
             end) l.

(** Calls made to the store. *)
Definition store_calls (l : list Event) : list Event :=
  omap (λ e, match e with FindRoom _ _ | CreateChat _ _ => Some e | _ => None end) l.

Definition is_error (f : Frame) : bool :=
  match f with
  | ErrorFrame _ => true
  | _ => false
  end.

(** Every frame in [l] is an error frame addressed to [ws]. *)
Definition only_errors_to (ws : WebSocket) (l : list (WebSocket * Frame)) : Prop :=
  Forall (λ cf, cf.1 = ws ∧ is_error cf.2 = true) l.

(** The frame is a register request, a message request. *)
Definition is_register (parsed : JsVal) : Prop :=
  is_string (field parsed "type") "register" = true.
Definition is_message (parsed : JsVal) : Prop :=
  is_string (field parsed "type") "message" = true.

(** The chat row the relay asks the store to create for a frame. *)
Definition chat_request (env : Env) (parsed : JsVal) : ChatData :=
  {| message := field parsed "text";
     createdAt := now env;
     chat_userId := Number env (field parsed "user_id");
     chat_roomId := field parsed "roomId" |}.

(** ** The Room Index read as the specification reads it *)

Definition membersOf (st : State) (room : string) : gset number :=
  default ∅ (roomUserMap st !! room).

(** [u] has a live Session in [room]. *)
Definition live (st : State) (room : string) (u : number) : Prop :=
  ∃ ws, map_get ws (activeClients st) = Some {| userId := u; roomId := room |}.

Definition consistent (st : State) : Prop :=
  ∀ room u, u ∈ membersOf st room ↔ live st room u.

(** The recipients the specification names for a message of [ws] in
    [room]: another connection, registered in [room], whose user is in
    [membersOf room], with an open transport. *)
Definition eligible (env : Env) (st : State) (ws : WebSocket) (room : string)
    (entry : WebSocket * Session) : Prop :=
  entry.1 ≠ ws ∧ roomId entry.2 = room ∧ userId entry.2 ∈ membersOf st room
  ∧ readyState env entry.1 = OPEN.

Global Instance eligible_dec env st ws room entry : Decision (eligible env st ws room entry).
Proof. unfold eligible. apply _. Defined.

(** The test of the loop body, lines 145-150. *)
Definition fanout_test (env : Env) (ws : WebSocket) (roomIdV : JsVal) (recipients : gset number)
    (entry : WebSocket * Session) : Prop :=
  entry.1 ≠ ws ∧ is_string roomIdV (roomId entry.2) = true ∧ userId entry.2 ∈ recipients
  ∧ readyState env entry.1 = OPEN.

Global Instance fanout_test_dec env ws roomIdV recipients entry :
  Decision (fanout_test env ws roomIdV recipients entry).
Proof. unfold fanout_test. apply _. Defined.

(** The sockets that were handed a [new-message] frame. *)
Definition new_message_recipients (l : list (WebSocket * Frame)) : list WebSocket :=
  omap (λ cf, match cf.2 with NewMessage _ => Some cf.1 | _ => None end) l.

(** A call to the store was rejected. *)
Definition store_threw (l : list Event) : bool :=
  existsb (λ e, match e with FindRoom _ threw | CreateChat _ threw => threw | _ => false end) l.

(** What the body of a branch may do before control reaches the outer
    [catch]: error frames go to [ws] only; it throws only when a send to
    [ws] threw, and then nothing but error frames was attempted and the
    maps are untouched; a rejected store call leaves the maps untouched
    and yields one error frame; an error frame that reaches [ws] is the
    only frame of the run and the maps are untouched. *)
Definition contained (env : Env) (ws : WebSocket) (st : State)
    (r : Completion unit * State * list Event) : Prop :=
  (∀ c f, (c, f) ∈ attempted (log r) → is_error f = true → c = ws)
  ∧ (completion r = Throw →
     sendThrows env ws = true ∧ state_after r = st ∧ only_errors_to ws (attempted (log r)))
  ∧ (store_threw (log r) = true →
     state_after r = st
     ∧ only_errors_to ws (attempted (log r))
     ∧ (sendThrows env ws = false → ∃ msg, delivered (log r) = [(ws, ErrorFrame msg)]))
  ∧ (sendThrows env ws = false →
     ∀ msg, (ws, ErrorFrame msg) ∈ delivered (log r) →
       delivered (log r) = [(ws, ErrorFrame msg)] ∧ state_after r = st).

(** The maps after lines 71-76 have run for [ws], [u] and [room]. *)
Definition committed (ws : WebSocket) (st : State) (u : number) (room : string) : State :=
  {| activeClients := map_set ws {| userId := u; roomId := room |} (activeClients st);
     roomUserMap := <[room := {[u]} ∪ membersOf st room]> (roomUserMap st) |}.

(** ** Runs of the server: frames and closes, one after the other *)

Inductive Input : Type :=
  | Message (env : Env) (ws : WebSocket) (data : option JsVal)
  | Close (ws : WebSocket).

Definition step (st : State) (i : Input) : State :=
  match i with
  | Message env ws data => state_after (onMessage env ws data st)
  | Close ws => onClose ws st
  end.

Definition run (inputs : list Input) : State := fold_left step inputs initial.

(** ** A sample deployment for the examples

    Rooms [r1] (users 1 and 2) and [r2] (users 1 and 3); the store
    accepts every chat; every socket is open. The examples carry numeric
    ids only, so the two coercion fields are never consulted. *)

Definition room_r1 : Room :=
  {| room_id := "r1"; users := [mkUser (int 1); mkUser (int 2)] |}.

Definition room_r2 : Room :=
  {| room_id := "r2"; users := [mkUser (int 1); mkUser (int 3)] |}.

Definition sample_rooms (id : string) : DbResult (option Room) :=
  if bool_decide (id = "r1") then Resolved (Some room_r1)
  else if bool_decide (id = "r2") then Resolved (Some room_r2)
  else Resolved None.

Definition sample_env : Env :=
  {| findUnique := sample_rooms;
     create := λ data, Resolved {| chat_id := 7; chat_row := data |};
     readyState := λ _, OPEN;
     sendThrows := λ _, false;
     now := 0;
     StringToNumber := λ _, NaN;
     ObjectToPrimitive := λ _, "[object Object]" |}.

Definition register_frame (room : string) (user : JsVal) : JsVal :=
  JObj [("type", JStr "register"); ("roomId", JStr room); ("userId", user)].

Definition message_frame (room : string) (user : JsVal) (text : JsVal) : JsVal :=
  JObj [("type", JStr "message"); ("roomId", JStr room); ("user_id", user); ("text", text)].

(** The same deployment with a store that rejects every chat. *)
Definition failing_store : Env :=
  {| findUnique := sample_rooms;
     create := λ _, Rejected;
     readyState := readyState sample_env;
     sendThrows := sendThrows sample_env;
     now := now sample_env;
     StringToNumber := StringToNumber sample_env;
     ObjectToPrimitive := ObjectToPrimitive sample_env |}.

(** The same deployment with sockets whose [send] throws. *)
Definition broken_sockets : Env :=
  {| findUnique := sample_rooms;
     create := create sample_env;
     readyState := readyState sample_env;
     sendThrows := λ _, true;
     now := now sample_env;
     StringToNumber := StringToNumber sample_env;
     ObjectToPrimitive := ObjectToPrimitive sample_env |}.


(** Connection 1 registers as user 1 in [r1]. *)
Definition one_member : list Input :=
  [Message sample_env 1 (Some (register_frame "r1" (JNum (int 1))))].

(** Connections 1 and 2 register as users 1 and 2 in [r1]. *)
Definition two_members : list Input :=
  [Message sample_env 1 (Some (register_frame "r1" (JNum (int 1))));
   Message sample_env 2 (Some (register_frame "r1" (JNum (int 2))))].

(** Connections 1 and 2 both register as user 1 in [r1]; connection 1
    closes. *)
Definition shared_user : list Input :=
  [Message sample_env 1 (Some (register_frame "r1" (JNum (int 1))));
   Message sample_env 2 (Some (register_frame "r1" (JNum (int 1))));
   Close 1].

(** ** Well-formed registries

    A JavaScript [Map] holds a key once; the association list that stands
    for [activeClients] does so as long as it is built with [map_set]. *)

Definition keys_unique (st : State) : Prop := NoDup (activeClients st).*1.

(** The sample deployment with a store that cannot be reached. *)
Definition store_down : Env :=
  {| findUnique := λ _, Rejected;
     create := λ _, Rejected;
     readyState := readyState sample_env;
     sendThrows := sendThrows sample_env;
     now := now sample_env;
     StringToNumber := StringToNumber sample_env;
     ObjectToPrimitive := ObjectToPrimitive sample_env |}.

(** The sample deployment after every room has been deleted from the
    store. *)
Definition rooms_gone : Env :=
  {| findUnique := λ _, Resolved None;
     create := create sample_env;
     readyState := readyState sample_env;
     sendThrows := sendThrows sample_env;
     now := now sample_env;
     StringToNumber := StringToNumber sample_env;
     ObjectToPrimitive := ObjectToPrimitive sample_env |}.

(** The sample deployment where the socket of connection 2 throws on
    [send]. *)
Definition second_socket_broken : Env :=
  {| findUnique := sample_rooms;
     create := create sample_env;
     readyState := readyState sample_env;
     sendThrows := λ ws, bool_decide (ws = 2);
     now := now sample_env;
     StringToNumber := StringToNumber sample_env;
     ObjectToPrimitive := ObjectToPrimitive sample_env |}.

(** The entries a loop with bare sends gets to: up to and including the
    first whose [send] throws. *)
Fixpoint until_throw (env : Env) (entries : list (WebSocket * Session))
  : list (WebSocket * Session) :=
  match entries with
  | [] => []
  | entry :: rest =>
      if sendThrows env entry.1 then [entry] else entry :: until_throw env rest
  end.

(** Connections 1, 2 and 3 register in [r1] as users 1, 2 and 2. *)
Definition three_members : list Input :=
  [Message sample_env 1 (Some (register_frame "r1" (JNum (int 1))));
   Message sample_env 2 (Some (register_frame "r1" (JNum (int 2))));
   Message sample_env 3 (Some (register_frame "r1" (JNum (int 2))))].

(** ** The compiled handler kept in the repository

    The repository also holds a compiled [index.js], built from a still
    earlier revision. It reads [roomId] and [userId] off the frame
    without a presence check and without [Number(...)]: the user id of
    the frame is compared as it is ([u.id === userId],
    [user_id !== clientMeta.userId]); past the context check the
    [user_id] handed to the store is therefore a number. Its fan-out loop
    is the loop of [Earlier.fanout], line for line. *)

(** [n === v] for a number [n] and whatever the frame carried. *)
Definition is_number (v : JsVal) (n : number) : bool :=
  match v with
  | JNum n' => number_strict_eq n n'
  | _ => false
  end.

(** A frame value that is a number, as a number. *)
Definition passed_number (v : JsVal) : number :=
  match v with
  | JNum n => n
  | _ => NaN
  end.

Module Compiled.
Section Handlers.
Context (env : Env).
Local Open Scope handler_scope.

Definition register (ws : WebSocket) (parsed : JsVal) : M unit :=
  roomIdV <- get parsed "roomId" ;;
  userIdV <- get parsed "userId" ;;
  room <- prisma_findUnique env roomIdV ;;
  let authorized :=
    match room with
    | Some room => existsb (λ u, is_number userIdV (user_id u)) (users room)
    | None => false
    end in
  if negb authorized then
    (send env ws (ErrorFrame "Unauthorized user or room") ;;; return_)
  else
    match roomIdV, userIdV with
    | JStr roomId, JNum userId =>
        (commit_registration ws userId roomId ;;;
         send env ws (RegisterSuccess roomId userId) ;;;
         return_)
    | _, _ => throw
    end.

Definition relay (ws : WebSocket) (parsed : JsVal) : M unit :=
  st <- get_state ;;
  match map_get ws (activeClients st) with
  | None => (send env ws (ErrorFrame "Client not registered") ;;; return_)
  | Some clientMeta =>
      roomIdV <- get parsed "roomId" ;;
      user_idV <- get parsed "user_id" ;;
      text <- get parsed "text" ;;
      if negb (is_string roomIdV (roomId clientMeta))
         || negb (is_number user_idV (userId clientMeta)) then
        (send env ws (ErrorFrame "Invalid room or user context") ;;; return_)
      else
        room <- prisma_findUnique env roomIdV ;;
        match room with
        | None => (send env ws (ErrorFrame "Room not found") ;;; return_)
        | Some _ =>
            chat <- prisma_create env
                      {| message := text; createdAt := now env;
                         chat_userId := passed_number user_idV; chat_roomId := roomIdV |} ;;
            (send env ws (MessageSent chat) ;;;
             st' <- get_state ;;
             match rooms_get roomIdV (roomUserMap st') with
             | Some recipients =>
                 Earlier.fanout env ws roomIdV recipients chat (activeClients st')
             | None => ret ()
             end)
        end
  end.

Definition onMessage (ws : WebSocket) (data : option JsVal) : M unit :=
  try_catch
    (parsed <- JSON_parse data ;;
     ty <- get parsed "type" ;;
     (if is_string ty "register" then register ws parsed else ret ()) ;;;
     ty' <- get parsed "type" ;;
     (if is_string ty' "message" then relay ws parsed else ret ()))
    (send env ws (ErrorFrame "Server error")).

End Handlers.
End Compiled.

(** The ids of the frame are numbers and pass the presence check of the
    later revisions. *)
Definition numeric_ids (parsed : JsVal) : Prop :=
  (is_register parsed →
   truthy (field parsed "roomId") = true
   ∧ ∃ n, field parsed "userId" = JNum n ∧ truthy (JNum n) = true)
  ∧ (is_message parsed → ∃ n, field parsed "user_id" = JNum n).

(** * Supporting lemmas *)

(** ** Shapes of frames *)

Lemma typed_frame_is_object parsed (s : string) :
  is_string (field parsed "type") s = true →
  ∃ fields, parsed = JObj fields ∧ own_property "type" fields = Some (JStr s).
Proof.
  destruct parsed; simpl; try discriminate.
  intros H. exists fields. split; [done|].
  destruct (own_property "type" fields) as [[]|]; simpl in H; try discriminate.
  apply bool_decide_eq_true in H. by subst.
Qed.

Lemma is_string_true v s : is_string v s = true → v = JStr s.
Proof.
  destruct v; simpl; try discriminate.
  intros H. apply bool_decide_eq_true in H. by subst.
Qed.

Ltac frame_object H :=
  let fields := fresh "fields" in
  let Hty := fresh "Hty" in
  destruct (typed_frame_is_object _ _ H) as (fields & -> & Hty).

Ltac unfold_handler :=
  cbv [onMessage relay register prisma_findUnique prisma_create rooms_get
       try_catch bind get JSON_parse ret get_state put_state send emit throw return_
       state_after log completion escaped];
  simpl.

(** Both outcomes of a send to the sender of the frame. *)
Ltac either_send env ws :=
  let Hs := fresh "Hs" in
  destruct (sendThrows env ws) eqn:Hs; simpl; rewrite ?Hs; simpl.

(** ** The two maps *)

Lemma map_get_elem_of ws (m : list (WebSocket * Session)) v :
  map_get ws m = Some v → (ws, v) ∈ m.
Proof.
  induction m as [|[k old] rest IH]; simpl; [done|].
  case_bool_decide; intros ?; simplify_eq; [left|right; by apply IH].
Qed.

Lemma not_live_by_entries st room u :
  Forall (λ e, e.2 ≠ {| userId := u; roomId := room |}) (activeClients st) →
  ¬ live st room u.
Proof.
  intros Hall [ws Hget%map_get_elem_of].
  rewrite list.Forall_forall in Hall. by apply Hall in Hget.
Qed.

(** The tail of a registration always goes through, and this is what it
    leaves in the two maps. *)
Lemma commit_registration_run ws u room st :
  commit_registration ws u room st = (Normal (), committed ws st u room, []).
Proof.
  cbv [commit_registration bind get_state put_state throw committed]. unfold membersOf.
  destruct (roomUserMap st !! room) as [members|] eqn:Hroom.
  - rewrite bool_decide_eq_true_2 by eauto. by rewrite Hroom.
  - rewrite bool_decide_eq_false_2 by (by intros [? ?]).
    rewrite lookup_insert_eq. simpl. by rewrite insert_insert_eq.
Qed.

Ltac commit_done :=
  repeat match goal with
  | H : commit_registration ?w ?u ?r ?s = _ |- _ =>
      rewrite commit_registration_run in H; simplify_eq/=
  end.

(** ** The loop of the fan-out *)

Lemma fanout_test_true env ws roomIdV recipients client meta :
  negb (bool_decide (client = ws)) && is_string roomIdV (roomId meta)
  && bool_decide (userId meta ∈ recipients) && bool_decide (readyState env client = OPEN) = true
  ↔ fanout_test env ws roomIdV recipients (client, meta).
Proof.
  unfold fanout_test. simpl.
  rewrite !andb_true_iff, negb_true_iff, !bool_decide_eq_true, bool_decide_eq_false.
  tauto.
Qed.

(** The loop runs to its end whatever the sockets do, leaves the maps
    alone, and hands the frame to the entries that pass the test, in the
    order of the map. *)
Lemma fanout_run env ws roomIdV recipients chat entries st :
  ∃ l, fanout env ws roomIdV recipients chat entries st = (Normal (), st, l)
    ∧ attempted l
      = (λ e, (e.1, NewMessage chat)) <$> filter (fanout_test env ws roomIdV recipients) entries
    ∧ delivered l
      = (λ e, (e.1, NewMessage chat))
          <$> filter (λ e, sendThrows env e.1 = false)
                (filter (fanout_test env ws roomIdV recipients) entries)
    ∧ store_calls l = [].
Proof.
  induction entries as [|[client meta] rest (l & Hrun & Hatt & Hdel & Hdb)].
  - by exists [].
  - simpl. unfold bind at 1.
    destruct (negb (bool_decide (client = ws)) && is_string roomIdV (roomId meta)
              && bool_decide (userId meta ∈ recipients)
              && bool_decide (readyState env client = OPEN)) eqn:Htest.
    + apply fanout_test_true in Htest.
      cbv [try_catch send bind emit throw ret]. simpl.
      destruct (sendThrows env client) eqn:Hs; rewrite Hrun; simpl;
        (eexists; split; [done|]); rewrite filter_cons, decide_True by done;
        rewrite filter_cons; simpl.
      * rewrite decide_False by congruence. simpl. by rewrite Hatt, Hdel, Hdb.
      * rewrite decide_True by done. simpl. by rewrite Hatt, Hdel, Hdb.
    + cbv [ret]. rewrite Hrun. exists l. split; [done|].
      rewrite filter_cons, decide_False by (rewrite <- fanout_test_true; congruence).
      done.
Qed.

Lemma store_calls_nil_threw l : store_calls l = [] → store_threw l = false.
Proof.
  induction l as [|e l IH]; [done|].
  destruct e; simpl; try done; apply IH.
Qed.

Lemma fanout_only_new_messages env ws roomIdV recipients chat entries st :
  ∃ l, fanout env ws roomIdV recipients chat entries st = (Normal (), st, l)
    ∧ Forall (λ cf, is_error cf.2 = false) (attempted l)
    ∧ Forall (λ cf, is_error cf.2 = false) (delivered l)
    ∧ store_threw l = false.
Proof.
  destruct (fanout_run env ws roomIdV recipients chat entries st)
    as (l & Hrun & Hatt & Hdel & Hdb).
  exists l. split; [done|]. rewrite Hatt, Hdel. split_and!.
  - by apply Forall_fmap, Forall_true.
  - by apply Forall_fmap, Forall_true.
  - by apply store_calls_nil_threw.
Qed.

Ltac fanout_done :=
  repeat match goal with
  | H : fanout ?e ?w ?r ?rec ?c ?ents ?s = _ |- _ =>
      let Hrun := fresh "Hrun" in
      destruct (fanout_only_new_messages e w r rec c ents s) as (? & Hrun & ? & ? & ?);
      rewrite Hrun in H; clear Hrun; simplify_eq/=
  end.

Lemma eligible_fanout_test env st ws room recipients entry :
  roomUserMap st !! room = Some recipients →
  fanout_test env ws (JStr room) recipients entry ↔ eligible env st ws room entry.
Proof.
  intros Hr. unfold fanout_test, eligible, membersOf. rewrite Hr. simpl.
  rewrite bool_decide_eq_true. intuition congruence.
Qed.

Lemma nobody_eligible env st ws room entries :
  roomUserMap st !! room = None →
  filter (eligible env st ws room) entries = [].
Proof.
  intros Hr. induction entries as [|e rest IH]; [done|].
  rewrite filter_cons_False; [done|].
  unfold eligible, membersOf. rewrite Hr. simpl.
  intros (_ & _ & Hin & _). by apply not_elem_of_empty in Hin.
Qed.

Lemma new_message_recipients_fmap chat (l : list (WebSocket * Session)) :
  new_message_recipients ((λ e, (e.1, NewMessage chat)) <$> l) = l.*1.
Proof.
  induction l as [|e l IH]; [done|].
  simpl. f_equal. apply IH.
Qed.

(** ** The relay once the chat is stored *)

Lemma relay_persisted env st ws parsed meta room chat :
  is_message parsed →
  map_get ws (activeClients st) = Some meta →
  is_string (field parsed "roomId") (roomId meta) = true →
  number_strict_eq (Number env (field parsed "user_id")) (userId meta) = true →
  findUnique env (roomId meta) = Resolved (Some room) →
  create env (chat_request env parsed) = Resolved chat →
  ∃ lf,
    onMessage env ws (Some parsed) st
    = (Normal (), st,
       FindRoom (JStr (roomId meta)) false
         :: CreateChat (chat_request env parsed) false
         :: (if sendThrows env ws then SendFailed ws (MessageSent chat)
             else Sent ws (MessageSent chat))
         :: lf)
    ∧ attempted lf
      = (λ e, (e.1, NewMessage chat))
          <$> filter (eligible env st ws (roomId meta)) (activeClients st)
    ∧ delivered lf
      = (λ e, (e.1, NewMessage chat))
          <$> filter (λ e, sendThrows env e.1 = false)
                (filter (eligible env st ws (roomId meta)) (activeClients st))
    ∧ store_calls lf = [].
Proof.
  intros Hty Hmeta Hroom Huser Hfind Hcreate.
  frame_object Hty. unfold chat_request in *. simpl in *.
  apply is_string_true in Hroom.
  destruct (own_property "roomId" fields) as [rid|] eqn:Hrid; [|done].
  simpl in *. subst rid.
  destruct (roomUserMap st !! roomId meta) as [recipients|] eqn:Hrec.
  - destruct (fanout_run env ws (JStr (roomId meta)) recipients chat (activeClients st) st)
      as (lf & Hrun & Hatt & Hdel & Hdb).
    exists lf.
    rewrite (list_filter_iff _ (eligible env st ws (roomId meta)) (activeClients st))
      in Hatt, Hdel by (intros e; by apply eligible_fanout_test).
    split; [|done].
    unfold_handler. rewrite Hty0. simpl. rewrite Hmeta, Hrid. simpl. rewrite Huser. simpl.
    rewrite bool_decide_eq_true_2 by done. simpl.
    rewrite Hfind, Hcreate. simpl.
    destruct (sendThrows env ws); simpl; rewrite Hrec, Hrun; simpl; by rewrite ?app_nil_r.
  - exists []. rewrite nobody_eligible by done.
    split; [|done].
    unfold_handler. rewrite Hty0. simpl. rewrite Hmeta, Hrid. simpl. rewrite Huser. simpl.
    rewrite bool_decide_eq_true_2 by done. simpl.
    rewrite Hfind, Hcreate. simpl.
    destruct (sendThrows env ws); simpl; by rewrite Hrec.
Qed.

(** ** What the branches can do before the outer catch *)

Lemma only_error_frames_to_sender ws chat (l : list (WebSocket * Frame)) c f :
  Forall (λ cf, is_error cf.2 = false) l →
  (c, f) ∈ (ws, MessageSent chat) :: l → is_error f = true → c = ws.
Proof.
  intros Hall Hin Herr. apply elem_of_cons in Hin as [[= -> ->]|Hin]; [done|].
  rewrite list.Forall_forall in Hall. apply Hall in Hin. simpl in Hin. congruence.
Qed.

Ltac listed_frames :=
  let c := fresh "c" in
  let f := fresh "f" in
  let Hin := fresh "Hin" in
  let Herr := fresh "Herr" in
  intros c f Hin Herr;
  repeat (apply elem_of_cons in Hin as [[= -> ->]|Hin]; [done|]);
  by apply elem_of_nil in Hin.

Lemma no_error_frame_among (l : list (WebSocket * Frame)) ws msg :
  Forall (λ cf, is_error cf.2 = false) l → (ws, ErrorFrame msg) ∉ l.
Proof.
  intros Hall Hin. rewrite list.Forall_forall in Hall. by apply Hall in Hin.
Qed.

(** An error frame among the delivered frames of a path: it is the
    only one. *)
Ltac single_error :=
  let Hs := fresh "Hs" in
  let msg := fresh "msg" in
  let Hin := fresh "Hin" in
  intros Hs msg Hin; try congruence;
  repeat (apply elem_of_cons in Hin as [Hin|Hin]; [by simplify_eq|]);
  first [ by apply elem_of_nil in Hin
        | by eapply no_error_frame_among in Hin ].

Ltac close_contained :=
  unfold contained, log, state_after, completion, only_errors_to; simpl;
  split_and!; try done;
  try (intros; eapply only_error_frames_to_sender; [eassumption|eassumption|eassumption]);
  try listed_frames;
  try (intros; congruence);
  try (intros _; split_and!; try done; try (by repeat constructor);
       try (intros; congruence); eauto; fail);
  try single_error.

Lemma register_contained env ws fields st :
  contained env ws st (register env ws (JObj fields) st)
  ∧ completion (register env ws (JObj fields) st) ≠ Normal ().
Proof.
  cbv [register prisma_findUnique try_catch bind get ret send emit throw return_].
  simpl.
  repeat (case_match; simplify_eq/=); commit_done.
  all: (split; [close_contained|done]).
Qed.



(** ** Where the maps are written *)

Lemma register_writes env ws fields st :
  state_after (register env ws (JObj fields) st) = st
  ∨ ∃ u room, state_after (register env ws (JObj fields) st) = committed ws st u room.
Proof.
  cbv [register prisma_findUnique try_catch bind get ret send emit throw return_ state_after].
  simpl.
  repeat (case_match; simplify_eq/=); commit_done; eauto.
Qed.

Lemma relay_writes env ws fields st :
  state_after (relay env ws (JObj fields) st) = st.
Proof.
  cbv [relay prisma_findUnique prisma_create rooms_get
       try_catch bind get ret get_state send emit throw return_ state_after].
  simpl.
  repeat (case_match; simplify_eq/=); fanout_done; done.
Qed.

(** A frame either leaves the maps as they are or runs lines 71-76. *)
Lemma onMessage_writes env ws data st :
  state_after (onMessage env ws data st) = st
  ∨ ∃ u room, state_after (onMessage env ws data st) = committed ws st u room.
Proof.
  destruct data as [[| | | | | |fields]|];
    try (left; unfold_handler; by destruct (sendThrows env ws)).
  unfold onMessage. cbv [JSON_parse get try_catch bind ret send emit throw]. simpl.
  destruct (is_string (default JUndefined (own_property "type" fields)) "register").
  - pose proof (register_writes env ws fields st) as Hreg.
    destruct (register_contained env ws fields st) as [_ Hc].
    destruct (register env ws (JObj fields) st) as [[[[]| |] st'] l];
      unfold state_after, completion in *; simpl in *; [done|done|].
    by destruct (sendThrows env ws).
  - destruct (is_string _ _).
    + pose proof (relay_writes env ws fields st) as Hrel.
      destruct (relay env ws (JObj fields) st) as [[[[]| |] st''] l'];
        unfold state_after in *; simpl in *; subst; try (by left);
        destruct (sendThrows env ws); by left.
    + by left.
Qed.

(** No frame ever takes a user out of the Room Index: only [onClose]
    removes. *)
Lemma index_never_shrinks_on_message env ws data st room :
  membersOf st room ⊆ membersOf (state_after (onMessage env ws data st)) room.
Proof.
  destruct (onMessage_writes env ws data st) as [->|(u & room' & ->)]; [done|].
  unfold membersOf at 2. unfold committed. simpl.
  destruct (decide (room' = room)) as [->|Hne].
  - rewrite lookup_insert_eq. simpl. apply union_subseteq_r.
  - by rewrite lookup_insert_ne.
Qed.

(** * The properties of the specification *)

(** ** C1: re-registration *)

(** C1. A connection that holds a Session and registers again for another
    room: the specification asks that the old (userId, roomId) pair leave
    the Room Index before the new one is added. Lines 71-76 overwrite the
    Session and add the new pair only. Connection 1 registers as user 1 in
    [r1], then in [r2]: both requests succeed, the Session now names [r2],
    the set of [r1] is what it was, user 1 is still in it, and no
    connection holds a Session for user 1 in [r1]. *)
Theorem reregister_leaves_orphan :
  let before := run one_member in
  let second := onMessage sample_env 1 (Some (register_frame "r2" (JNum (int 1)))) before in
  let after := state_after second in
  map_get 1 (activeClients before) = Some {| userId := int 1; roomId := "r1" |}
  ∧ delivered (log second) = [(1, RegisterSuccess "r2" (int 1))]
  ∧ map_get 1 (activeClients after) = Some {| userId := int 1; roomId := "r2" |}
  ∧ membersOf after "r1" = membersOf before "r1"
  ∧ int 1 ∈ membersOf after "r1"
  ∧ ¬ live after "r1" (int 1).
Proof.
  cbv zeta. split_and!.
  - by vm_compute.
  - by vm_compute.
  - by vm_compute.
  - by vm_compute.
  - apply (bool_decide_unpack _). by vm_compute.
  - apply not_live_by_entries. vm_compute. by repeat constructor.
Qed.

(** ** C2: consistency of the Room Index *)

(** C2. The specification asks that after any sequence of register and
    close events [membersOf room] be exactly the users with a live
    Session in [room]. The index is a set of user ids, and [onClose]
    deletes the id of the closing connection from it without looking for
    another connection of the same user. Connections 1 and 2 register as
    user 1 in [r1] and connection 1 closes: connection 2 still holds its
    Session, and user 1 is no longer in the index, which has lost the
    room altogether. *)
Theorem index_inconsistent_after_close :
  let st := run shared_user in
  map_get 2 (activeClients st) = Some {| userId := int 1; roomId := "r1" |}
  ∧ live st "r1" (int 1)
  ∧ roomUserMap st !! "r1" = None
  ∧ (int 1 ∉ membersOf st "r1")
  ∧ ¬ consistent st.
Proof.
  assert (live (run shared_user) "r1" (int 1)) as Hlive by (exists 2; by vm_compute).
  assert (int 1 ∉ membersOf (run shared_user) "r1") as Hout.
  { apply (bool_decide_eq_false_1 _). by vm_compute. }
  cbv zeta. split_and!; [by vm_compute|done|by vm_compute|done|].
  intros Hc. apply Hout, Hc, Hlive.
Qed.

(** ** C3: authorization at register *)




(** ** C4: the presence check *)




(** ** C5: the context check *)



(** ** C6: persistence failure *)

(** C6. A message frame that passes the registration, context and room
    checks while the store rejects the chat: the first thing handed to the
    sender is the "Failed to save message" error; every frame of the run
    is an error frame to the sender, so there is neither a message-sent
    acknowledgment nor a new-message frame to anyone; the maps are
    unchanged. When the send goes through, that error is the one frame
    delivered. *)
Theorem persistence_failure env st ws parsed meta room :
  is_message parsed →
  map_get ws (activeClients st) = Some meta →
  is_string (field parsed "roomId") (roomId meta) = true →
  number_strict_eq (Number env (field parsed "user_id")) (userId meta) = true →
  findUnique env (roomId meta) = Resolved (Some room) →
  create env (chat_request env parsed) = Rejected →
  let r := onMessage env ws (Some parsed) st in
  head (attempted (log r)) = Some (ws, ErrorFrame "Failed to save message")
  ∧ only_errors_to ws (attempted (log r))
  ∧ state_after r = st
  ∧ (sendThrows env ws = false →
     delivered (log r) = [(ws, ErrorFrame "Failed to save message")]).
Proof.
  intros Hty Hmeta Hroom Huser Hfind Hcreate.
  frame_object Hty. unfold chat_request in *. simpl in *.
  apply is_string_true in Hroom.
  destruct (own_property "roomId" fields) as [rid|] eqn:Hrid; [|done].
  simpl in *. subst rid.
  unfold_handler. rewrite Hty0. simpl. rewrite Hmeta, Hrid. simpl. rewrite Huser. simpl.
  rewrite bool_decide_eq_true_2 by done. simpl.
  rewrite Hfind, Hcreate. simpl.
  either_send env ws; split_and!; try done; by repeat constructor.
Qed.

(** Users 1 and 2 are in [r1]; user 1 sends while the store is down. *)
Lemma persistence_failure_witness :
  let r := onMessage failing_store 1
             (Some (message_frame "r1" (JNum (int 1)) (JStr "hi"))) (run two_members) in
  head (attempted (log r)) = Some (1, ErrorFrame "Failed to save message")
  ∧ only_errors_to 1 (attempted (log r))
  ∧ state_after r = run two_members
  ∧ (sendThrows failing_store 1 = false →
     delivered (log r) = [(1, ErrorFrame "Failed to save message")]).
Proof.
  apply (persistence_failure failing_store (run two_members) 1
           (message_frame "r1" (JNum (int 1)) (JStr "hi"))
           {| userId := int 1; roomId := "r1" |} room_r1).
  - reflexivity.
  - vm_compute. reflexivity.
  - reflexivity.
  - vm_compute. reflexivity.
  - reflexivity.
  - reflexivity.
Defined.

(** ** C7: the fan-out *)

(** C7. Once the chat is stored, the new-message frame is handed, in the
    order of [activeClients], to exactly the entries other than the sender
    whose Session is in the room of the message, whose user is in
    [membersOf] of that room and whose socket is open; it reaches each of
    them whose [send] does not throw. The sender is handed the
    message-sent acknowledgment and nothing else. *)
Theorem fanout_exact env st ws parsed meta room chat :
  is_message parsed →
  map_get ws (activeClients st) = Some meta →
  is_string (field parsed "roomId") (roomId meta) = true →
  number_strict_eq (Number env (field parsed "user_id")) (userId meta) = true →
  findUnique env (roomId meta) = Resolved (Some room) →
  create env (chat_request env parsed) = Resolved chat →
  let r := onMessage env ws (Some parsed) st in
  new_message_recipients (attempted (log r))
    = (filter (eligible env st ws (roomId meta)) (activeClients st)).*1
  ∧ (∀ c, (c, NewMessage chat) ∈ delivered (log r) ↔
          ∃ m, (c, m) ∈ activeClients st ∧ eligible env st ws (roomId meta) (c, m)
               ∧ sendThrows env c = false)
  ∧ (∀ f, (ws, f) ∈ attempted (log r) → f = MessageSent chat)
  ∧ (sendThrows env ws = false → (ws, MessageSent chat) ∈ delivered (log r)).
Proof.
  intros Hty Hmeta Hroom Huser Hfind Hcreate r.
  destruct (relay_persisted env st ws parsed meta room chat) as (lf & Hrun & Hatt & Hdel & _);
    try done.
  subst r. rewrite Hrun. unfold log. simpl. split_and!.
  - destruct (sendThrows env ws); simpl; rewrite Hatt;
      apply new_message_recipients_fmap.
  - intros c.
    assert ((c, NewMessage chat) ∈ delivered lf ↔
            ∃ m, (c, m) ∈ activeClients st ∧ eligible env st ws (roomId meta) (c, m)
                 ∧ sendThrows env c = false) as Hiff.
    { rewrite Hdel, list_elem_of_fmap. split.
      - intros ([c' m] & [= ->] & Hin).
        apply list_elem_of_filter in Hin as [Hs Hin].
        apply list_elem_of_filter in Hin as [He Hin]. eauto.
      - intros (m & Hin & He & Hs). exists (c, m). split; [done|].
        apply list_elem_of_filter. split; [done|]. by apply list_elem_of_filter. }
    destruct (sendThrows env ws); simpl; [done|].
    rewrite elem_of_cons, Hiff. split; [|by right].
    by intros [[= ? ?]|?].
  - intros f Hin.
    assert ((ws, f) ∉ attempted lf) as Hnot.
    { rewrite Hatt, list_elem_of_fmap. intros ([c m] & [= <- ->] & Hin').
      apply list_elem_of_filter in Hin' as [He _]. by destruct He as [He _]. }
    destruct (sendThrows env ws); simpl in Hin;
      apply elem_of_cons in Hin as [[= ->]|Hin]; done.
  - intros ->. simpl. by left.
Qed.

(** Users 1 and 2 are in [r1]; user 1 sends. *)
Lemma fanout_exact_witness :
  let parsed := message_frame "r1" (JNum (int 1)) (JStr "hi") in
  let chat := {| chat_id := 7; chat_row := chat_request sample_env parsed |} in
  let st := run two_members in
  let r := onMessage sample_env 1 (Some parsed) st in
  new_message_recipients (attempted (log r))
    = (filter (eligible sample_env st 1 "r1") (activeClients st)).*1
  ∧ (∀ c, (c, NewMessage chat) ∈ delivered (log r) ↔
          ∃ m, (c, m) ∈ activeClients st ∧ eligible sample_env st 1 "r1" (c, m)
               ∧ sendThrows sample_env c = false)
  ∧ (∀ f, (1, f) ∈ attempted (log r) → f = MessageSent chat)
  ∧ (sendThrows sample_env 1 = false → (1, MessageSent chat) ∈ delivered (log r)).
Proof.
  apply (fanout_exact sample_env (run two_members) 1
           (message_frame "r1" (JNum (int 1)) (JStr "hi"))
           {| userId := int 1; roomId := "r1" |} room_r1).
  - reflexivity.
  - vm_compute. reflexivity.
  - reflexivity.
  - vm_compute. reflexivity.
  - reflexivity.
  - reflexivity.
Defined.

(** ** C8: frames of an unknown type *)

(** C8 (amended). A frame that parses to a JSON value other than [null]
    and whose type is neither "register" nor "message" (or is missing) is
    ignored: the handler completes with nothing sent, no call to the
    store and the maps unchanged. *)
Theorem unknown_type_ignored env st ws parsed :
  parsed ≠ JNull →
  parsed ≠ JUndefined →
  is_string (field parsed "type") "register" = false →
  is_string (field parsed "type") "message" = false →
  onMessage env ws (Some parsed) st = (Normal (), st, []).
Proof.
  intros Hnull Hundef Hreg Hmsg.
  destruct parsed; try done; simpl in *; unfold_handler; try done.
  by rewrite Hreg, Hmsg.
Qed.

Lemma unknown_type_ignored_witness :
  onMessage sample_env 1 (Some (JObj [("type", JStr "ping")])) (run one_member)
  = (Normal (), run one_member, []).
Proof.
  apply (unknown_type_ignored sample_env (run one_member) 1 (JObj [("type", JStr "ping")]));
    [discriminate | discriminate | reflexivity | reflexivity].
Defined.

(** C8 as stated fails for the frame [null]: it is well-formed JSON and
    has no type, reading [parsed.type] throws, and the outer catch answers
    with an error frame. *)
Lemma unknown_type_ignored_counterexample :
  let r := onMessage sample_env 1 (Some JNull) initial in
  is_string (field JNull "type") "register" = false
  ∧ is_string (field JNull "type") "message" = false
  ∧ log r = [Sent 1 (ErrorFrame "Unexpected server error")]
  ∧ attempted (log r) ≠ [].
Proof. cbv zeta. split_and!; by vm_compute. Qed.

(** ** C9: the dispatcher boundary *)


(** The guard of lines 162-166 is what the first conjunct rests on: in
    the earlier handler the [send] of the outer catch is bare, and an
    unparseable frame on a socket whose [send] throws lets the exception
    out. *)
Remark earlier_catch_lets_it_out :
  escaped (Earlier.onMessage broken_sockets 1 None initial) = true
  ∧ escaped (onMessage broken_sockets 1 None initial) = false.
Proof. split; by vm_compute. Qed.

(** The earlier handler drops a register frame that fails the presence
    check without any reply. *)
Remark earlier_presence_check_is_silent :
  Earlier.onMessage sample_env 1 (Some (register_frame "r1" JNull)) initial
  = (Return, initial, []).
Proof. by vm_compute. Qed.

(** ** C10: the text is not validated *)

(** C10 (amended). A message frame from a registered connection with
    matching context and an existing room: the relay does not look at the
    text member. Whatever it is, absent and non-string values included,
    the store is asked to create a chat whose message is that raw value,
    and what follows depends on the answer of the store alone: a created
    chat is acknowledged to the sender and handed to the eligible
    recipients; a rejected one is answered with the "Failed to save
    message" error and nothing else is sent. *)
Theorem text_handed_raw_to_store env st ws parsed meta room :
  is_message parsed →
  map_get ws (activeClients st) = Some meta →
  is_string (field parsed "roomId") (roomId meta) = true →
  number_strict_eq (Number env (field parsed "user_id")) (userId meta) = true →
  findUnique env (roomId meta) = Resolved (Some room) →
  let r := onMessage env ws (Some parsed) st in
  let data := {| message := field parsed "text";
                 createdAt := now env;
                 chat_userId := Number env (field parsed "user_id");
                 chat_roomId := field parsed "roomId" |} in
  state_after r = st
  ∧ match create env data with
    | Resolved chat =>
        store_calls (log r) = [FindRoom (JStr (roomId meta)) false; CreateChat data false]
        ∧ head (attempted (log r)) = Some (ws, MessageSent chat)
        ∧ tail (attempted (log r))
          = (λ e, (e.1, NewMessage chat))
              <$> filter (eligible env st ws (roomId meta)) (activeClients st)
    | Rejected =>
        store_calls (log r) = [FindRoom (JStr (roomId meta)) false; CreateChat data true]
        ∧ head (attempted (log r)) = Some (ws, ErrorFrame "Failed to save message")
        ∧ only_errors_to ws (attempted (log r))
    end.
Proof.
  intros Hty Hmeta Hroom Huser Hfind r data. subst r data.
  fold (chat_request env parsed).
  destruct (create env (chat_request env parsed)) as [chat|] eqn:Hcreate.
  - destruct (relay_persisted env st ws parsed meta room chat)
      as (lf & Hrun & Hatt & _ & Hdb); try done.
    rewrite Hrun. unfold log, state_after. simpl.
    destruct (sendThrows env ws); simpl; by rewrite Hatt, Hdb.
  - frame_object Hty. unfold chat_request in *. simpl in *.
    apply is_string_true in Hroom.
    destruct (own_property "roomId" fields) as [rid|] eqn:Hrid; [|done].
    simpl in *. subst rid.
    unfold_handler. rewrite Hty0. simpl. rewrite Hmeta, Hrid. simpl. rewrite Huser. simpl.
    rewrite bool_decide_eq_true_2 by done. simpl.
    rewrite Hfind, Hcreate. simpl.
    either_send env ws; split_and!; try done; by repeat constructor.
Qed.

(** Users 1 and 2 are in [r1]; user 1 sends a frame without a text
    member. *)
Lemma text_handed_raw_to_store_witness :
  let parsed := JObj [("type", JStr "message"); ("roomId", JStr "r1");
                      ("user_id", JNum (int 1))] in
  let st := run two_members in
  let r := onMessage sample_env 1 (Some parsed) st in
  let data := {| message := field parsed "text";
                 createdAt := now sample_env;
                 chat_userId := Number sample_env (field parsed "user_id");
                 chat_roomId := field parsed "roomId" |} in
  state_after r = st
  ∧ match create sample_env data with
    | Resolved chat =>
        store_calls (log r) = [FindRoom (JStr "r1") false; CreateChat data false]
        ∧ head (attempted (log r)) = Some (1, MessageSent chat)
        ∧ tail (attempted (log r))
          = (λ e, (e.1, NewMessage chat))
              <$> filter (eligible sample_env st 1 "r1") (activeClients st)
    | Rejected =>
        store_calls (log r) = [FindRoom (JStr "r1") false; CreateChat data true]
        ∧ head (attempted (log r)) = Some (1, ErrorFrame "Failed to save message")
        ∧ only_errors_to 1 (attempted (log r))
    end.
Proof.
  apply (text_handed_raw_to_store sample_env (run two_members) 1
           (JObj [("type", JStr "message"); ("roomId", JStr "r1"); ("user_id", JNum (int 1))])
           {| userId := int 1; roomId := "r1" |} room_r1).
  - reflexivity.
  - vm_compute. reflexivity.
  - reflexivity.
  - vm_compute. reflexivity.
  - reflexivity.
Defined.

(** C10 as stated fails when the store does not take the chat. Users 1
    and 2 are in [r1], the room exists, and user 1 sends a frame whose
    text is [null] to a store that rejects every chat: the raw value is
    handed to [create], nothing is persisted, the sender gets the error
    and connection 2 gets nothing. *)
Lemma text_handed_raw_to_store_counterexample :
  let parsed := message_frame "r1" (JNum (int 1)) JNull in
  let st := run two_members in
  let r := onMessage failing_store 1 (Some parsed) st in
  is_message parsed
  ∧ map_get 1 (activeClients st) = Some {| userId := int 1; roomId := "r1" |}
  ∧ is_string (field parsed "roomId") "r1" = true
  ∧ number_strict_eq (Number failing_store (field parsed "user_id")) (int 1) = true
  ∧ findUnique failing_store "r1" = Resolved (Some room_r1)
  ∧ log r
    = [FindRoom (JStr "r1") false;
       CreateChat {| message := JNull; createdAt := now failing_store;
                     chat_userId := int 1; chat_roomId := JStr "r1" |} true;
       Sent 1 (ErrorFrame "Failed to save message")]
  ∧ new_message_recipients (attempted (log r)) = [].
Proof. cbv zeta. split_and!; by vm_compute. Qed.

(** In that run the message asked of the store is [undefined], and
    connection 2 is handed the stored chat. *)
Example text_absent_is_stored_and_broadcast :
  let parsed := JObj [("type", JStr "message"); ("roomId", JStr "r1");
                      ("user_id", JNum (int 1))] in
  let chat := {| chat_id := 7; chat_row := chat_request sample_env parsed |} in
  message (chat_request sample_env parsed) = JUndefined
  ∧ delivered (log (onMessage sample_env 1 (Some parsed) (run two_members)))
    = [(1, MessageSent chat); (2, NewMessage chat)].
Proof. cbv zeta. split; by vm_compute. Qed.

(** * Further properties of the handlers *)

(** ** The registry as a map *)

Lemma map_get_None ws (m : list (WebSocket * Session)) :
  map_get ws m = None ↔ ws ∉ m.*1.
Proof.
  induction m as [|[k v] rest IH]; simpl.
  - split; [intros _; apply not_elem_of_nil|done].
  - case_bool_decide as Hk.
    + subst. split; [done|]. intros Hnot. destruct Hnot. by left.
    + rewrite IH, not_elem_of_cons. split; [by split|by intros [_ ?]].
Qed.

Lemma map_get_set ws ws' v (m : list (WebSocket * Session)) :
  map_get ws' (map_set ws v m) = if decide (ws' = ws) then Some v else map_get ws' m.
Proof.
  induction m as [|[k old] rest IH]; simpl.
  - case_bool_decide; case_decide; congruence.
  - case_bool_decide as Hk; simpl.
    + subst k. case_bool_decide; case_decide; congruence.
    + case_bool_decide as Hk'; [|done]. subst k. by rewrite decide_False.
Qed.

Lemma map_set_keys ws v (m : list (WebSocket * Session)) :
  (map_set ws v m).*1 = if decide (ws ∈ m.*1) then m.*1 else m.*1 ++ [ws].
Proof.
  induction m as [|[k old] rest IH].
  - case_decide as Hin; [by apply elem_of_nil in Hin|done].
  - cbn [map_set]. case_bool_decide as Hk.
    + subst k. rewrite decide_True; [done|by left].
    + rewrite !fmap_cons, IH. cbn [fst].
      destruct (decide (ws ∈ rest.*1)) as [Hin|Hnot].
      * rewrite decide_True; [done|by right].
      * rewrite decide_False; [done|]. rewrite not_elem_of_cons. split; [congruence|done].
Qed.

Lemma map_delete_absent ws (m : list (WebSocket * Session)) :
  map_get ws m = None → map_delete ws m = m.
Proof.
  induction m as [|[k v] rest IH]; simpl; [done|].
  case_bool_decide; [done|]. intros Hget. by rewrite IH.
Qed.

Lemma map_get_delete_ne ws ws' (m : list (WebSocket * Session)) :
  ws' ≠ ws → map_get ws' (map_delete ws m) = map_get ws' m.
Proof.
  intros Hne. induction m as [|[k v] rest IH]; simpl; [done|].
  case_bool_decide as Hk; simpl.
  - subst k. by rewrite bool_decide_eq_false_2 by congruence.
  - by rewrite IH.
Qed.

Lemma map_delete_keys ws (m : list (WebSocket * Session)) :
  NoDup m.*1 → NoDup (map_delete ws m).*1 ∧ ws ∉ (map_delete ws m).*1.
Proof.
  induction m as [|[k v] rest IH]; simpl.
  - intros _. split; [constructor|apply not_elem_of_nil].
  - intros [Hk Hrest]%list.NoDup_cons. case_bool_decide as Heq; simpl.
    + subst k. done.
    + destruct (IH Hrest) as [Hnd Hnot]. split.
      * apply list.NoDup_cons. split; [|done].
        intros Hin. apply Hk.
        clear -Hin. induction rest as [|[k' v'] rest IH]; simpl in *; [done|].
        case_bool_decide; simpl in *; [by right|].
        apply elem_of_cons in Hin as [->|Hin]; [by left|right; by apply IH].
      * rewrite not_elem_of_cons. split; [congruence|done].
Qed.

Lemma map_set_keys_unique ws v (m : list (WebSocket * Session)) :
  NoDup m.*1 → NoDup (map_set ws v m).*1.
Proof.
  intros Hnd. rewrite map_set_keys. case_decide; [done|].
  apply list.NoDup_app. split_and!; [done| |apply list.NoDup_singleton].
  intros k Hk Hin%list_elem_of_singleton. by subst.
Qed.

(** Every state the server reaches holds each connection once. *)
Lemma step_keys_unique st i : keys_unique st → keys_unique (step st i).
Proof.
  unfold keys_unique. intros Hnd. destruct i as [env ws data|ws]; simpl.
  - destruct (onMessage_writes env ws data st) as [->|(u & room & ->)]; [done|].
    simpl. by apply map_set_keys_unique.
  - by apply map_delete_keys.
Qed.

Lemma run_snoc inputs i : run (inputs ++ [i]) = step (run inputs) i.
Proof. unfold run. by rewrite fold_left_app. Qed.

Lemma run_keys_unique inputs : keys_unique (run inputs).
Proof.
  induction inputs as [|i inputs IH] using rev_ind.
  - constructor.
  - rewrite run_snoc. by apply step_keys_unique.
Qed.

Lemma map_get_delete ws ws' (m : list (WebSocket * Session)) :
  NoDup m.*1 →
  map_get ws' (map_delete ws m) = if decide (ws' = ws) then None else map_get ws' m.
Proof.
  intros Hnd. case_decide as Heq.
  - subst ws'. apply map_get_None. by apply map_delete_keys.
  - by apply map_get_delete_ne.
Qed.

(** Who is in the set of a room after a close. *)
Lemma elem_of_members_onClose ws st meta room u :
  map_get ws (activeClients st) = Some meta →
  u ∈ membersOf (onClose ws st) room
  ↔ u ∈ membersOf st room ∧ ¬ (room = roomId meta ∧ u = userId meta).
Proof.
  intros Hget. unfold membersOf, onClose. rewrite Hget. simpl.
  destruct (roomUserMap st !! roomId meta) as [roomSet|] eqn:Hroom.
  - case_bool_decide as Hsize.
    + apply size_empty_iff, leibniz_equiv in Hsize.
      destruct (decide (room = roomId meta)) as [->|Hne].
      * rewrite lookup_delete_eq, Hroom. simpl. split; [by intros ?%not_elem_of_empty|].
        intros [Hin Hnot]. exfalso.
        apply (not_elem_of_empty (C:=gset number) u). rewrite <- Hsize.
        apply elem_of_difference. split; [done|].
        intros ->%elem_of_singleton. by apply Hnot.
      * rewrite lookup_delete_ne by done. split; [|by intros [? _]].
        intros Hin. split; [done|]. by intros [? _].
    + destruct (decide (room = roomId meta)) as [->|Hne].
      * rewrite lookup_insert_eq, Hroom. simpl. rewrite elem_of_difference, elem_of_singleton.
        split; intros [Hin Hnot]; (split; [done|]); [by intros [_ ?]|].
        intros ->. by apply Hnot.
      * rewrite lookup_insert_ne by done. split; [|by intros [? _]].
        intros Hin. split; [done|]. by intros [? _].
  - split; [|by intros [? _]]. intros Hin. split; [done|].
    intros [-> _]. rewrite Hroom in Hin. simpl in Hin. by apply not_elem_of_empty in Hin.
Qed.

(** ** The close handler *)

(** X1. A connection without a Session closes without any change to the
    two maps. *)
Theorem close_without_session ws st :
  map_get ws (activeClients st) = None → onClose ws st = st.
Proof.
  intros Hget. unfold onClose. rewrite Hget, map_delete_absent by done.
  by destruct st.
Qed.

Lemma close_without_session_witness : onClose 3 (run two_members) = run two_members.
Proof. apply (close_without_session 3 (run two_members)). vm_compute. reflexivity. Defined.

(** X2. In a registry that holds each connection once, after a close the
    closed connection holds no Session and every other connection holds
    the Session it held. *)
Theorem close_sessions ws ws' st :
  keys_unique st →
  map_get ws' (activeClients (onClose ws st))
  = if decide (ws' = ws) then None else map_get ws' (activeClients st).
Proof.
  intros Hnd. unfold onClose, keys_unique in *. simpl.
  by apply map_get_delete.
Qed.

Lemma close_sessions_witness :
  map_get 2 (activeClients (onClose 1 (run two_members)))
  = if decide (2 = 1) then None else map_get 2 (activeClients (run two_members)).
Proof.
  apply (close_sessions 1 2 (run two_members)).
  apply (bool_decide_unpack _). vm_compute. exact I.
Defined.

(** X3. A close takes the user of the closed Session out of the set of
    its room and touches no other room and no other user. *)
Theorem close_members ws st meta room :
  map_get ws (activeClients st) = Some meta →
  membersOf (onClose ws st) room
  = if decide (room = roomId meta) then membersOf st room ∖ {[userId meta]}
    else membersOf st room.
Proof.
  intros Hget. apply set_eq. intros u.
  rewrite (elem_of_members_onClose ws st meta) by done.
  case_decide as Heq.
  - rewrite elem_of_difference, elem_of_singleton. split.
    + intros [Hin Hnot]. split; [done|]. intros ->. by apply Hnot.
    + intros [Hin Hnot]. split; [done|]. by intros [_ ?].
  - split; [by intros [? _]|]. intros Hin. split; [done|]. by intros [? _].
Qed.

Lemma close_members_witness :
  membersOf (onClose 1 (run two_members)) "r1"
  = if decide ("r1" = roomId {| userId := int 1; roomId := "r1" |})
    then membersOf (run two_members) "r1" ∖ {[userId {| userId := int 1; roomId := "r1" |}]}
    else membersOf (run two_members) "r1".
Proof.
  apply (close_members 1 (run two_members) {| userId := int 1; roomId := "r1" |} "r1").
  vm_compute. reflexivity.
Defined.

(** X4. Closing twice is closing once, in every state the server
    reaches. *)
Theorem close_twice inputs ws :
  run (inputs ++ [Close ws; Close ws]) = run (inputs ++ [Close ws]).
Proof.
  replace (inputs ++ [Close ws; Close ws]) with ((inputs ++ [Close ws]) ++ [Close ws])
    by (by rewrite <- app_assoc).
  rewrite (run_snoc (inputs ++ [Close ws])), run_snoc. cbn [step].
  pose proof (run_keys_unique inputs) as Hnd. unfold keys_unique in Hnd.
  set (st := run inputs) in *.
  assert (map_get ws (activeClients (onClose ws st)) = None) as Hgone.
  { unfold onClose. simpl. rewrite map_get_delete by done. by rewrite decide_True. }
  unfold onClose at 1. rewrite Hgone, map_delete_absent by done.
  by destruct (onClose ws st).
Qed.

(** X5. No room is ever left in the Room Index with an empty set. *)
Theorem no_empty_rooms inputs room members :
  roomUserMap (run inputs) !! room = Some members → members ≠ ∅.
Proof.
  revert room members. induction inputs as [|i inputs IH] using rev_ind.
  - intros room members. unfold run. simpl. by rewrite lookup_empty.
  - intros room members. rewrite run_snoc. destruct i as [env ws data|ws]; simpl.
    + destruct (onMessage_writes env ws data (run inputs)) as [->|(u & r & ->)];
        [apply IH|].
      simpl. destruct (decide (r = room)) as [->|Hne].
      * rewrite lookup_insert_eq. intros [= <-] Hempty.
        apply (not_elem_of_empty (C:=gset number) u). rewrite <- Hempty.
        apply elem_of_union_l, elem_of_singleton_2. reflexivity.
      * rewrite lookup_insert_ne by done. apply IH.
    + unfold onClose. simpl.
      destruct (map_get ws (activeClients (run inputs))) as [meta|]; [|apply IH].
      destruct (roomUserMap (run inputs) !! roomId meta) as [roomSet|] eqn:Hroom; [|apply IH].
      case_bool_decide as Hsize.
      * destruct (decide (roomId meta = room)) as [<-|Hne].
        -- by rewrite lookup_delete_eq.
        -- rewrite lookup_delete_ne by done. apply IH.
      * destruct (decide (roomId meta = room)) as [<-|Hne].
        -- rewrite lookup_insert_eq. intros [= <-] Hempty. apply Hsize.
           rewrite Hempty. apply size_empty.
        -- rewrite lookup_insert_ne by done. apply IH.
Qed.

Lemma no_empty_rooms_witness : membersOf (run two_members) "r1" ≠ ∅.
Proof.
  apply (no_empty_rooms two_members "r1" (membersOf (run two_members) "r1")).
  vm_compute. reflexivity.
Defined.

(** ** When the Room Index stays consistent *)

Lemma live_committed ws st u room r' u' :
  map_get ws (activeClients st) = None →
  live (committed ws st u room) r' u' ↔ live st r' u' ∨ (r' = room ∧ u' = u).
Proof.
  intros Hnone. unfold live, committed. simpl. split.
  - intros [ws' Hget]. rewrite map_get_set in Hget. case_decide.
    + right. by simplify_eq.
    + left. eauto.
  - intros [[ws' Hget]|[-> ->]].
    + exists ws'. rewrite map_get_set. case_decide; [congruence|done].
    + exists ws. rewrite map_get_set. by rewrite decide_True.
Qed.

Lemma committed_consistent ws st u room :
  consistent st →
  map_get ws (activeClients st) = None →
  consistent (committed ws st u room).
Proof.
  intros Hc Hnone. unfold consistent in Hc.
  intros r' u'. rewrite live_committed by done. rewrite <- (Hc r' u').
  unfold membersOf at 1. unfold committed. simpl.
  destruct (decide (room = r')) as [->|Hne].
  - rewrite lookup_insert_eq. simpl. rewrite elem_of_union, elem_of_singleton. intuition.
  - rewrite lookup_insert_ne by done. fold (membersOf st r'). intuition congruence.
Qed.

Lemma initial_consistent : consistent initial.
Proof.
  intros room u. unfold membersOf, live. simpl. rewrite lookup_empty. simpl.
  split; [by intros ?%not_elem_of_empty|by intros [? ?]].
Qed.

Lemma two_members_consistent : consistent (run two_members).
Proof.
  replace (run two_members)
    with (committed 2 (committed 1 initial (int 1) "r1") (int 2) "r1") by (by vm_compute).
  apply committed_consistent; [|reflexivity].
  apply committed_consistent; [|reflexivity].
  apply initial_consistent.
Qed.

(** X6. Lines 71-76, run for a connection that holds no Session at that
    moment and on a consistent Room Index, always go through and leave
    the index consistent. The condition is on the maps as the
    synchronous tail of the registration finds them, not as they were
    when the frame arrived. *)
Theorem commit_keeps_consistency ws u room st :
  consistent st →
  map_get ws (activeClients st) = None →
  completion (commit_registration ws u room st) = Normal ()
  ∧ consistent (state_after (commit_registration ws u room st)).
Proof.
  intros Hc Hnone. rewrite commit_registration_run.
  unfold completion, state_after. simpl. split; [done|].
  by apply committed_consistent.
Qed.

Lemma commit_keeps_consistency_witness :
  completion (commit_registration 1 (int 1) "r1" initial) = Normal ()
  ∧ consistent (state_after (commit_registration 1 (int 1) "r1" initial)).
Proof.
  apply (commit_keeps_consistency 1 (int 1) "r1" initial).
  - apply initial_consistent.
  - reflexivity.
Defined.

(** X7. A close keeps a consistent Room Index consistent when no other
    connection holds the same (userId, roomId) pair as the one that
    closes. *)
Theorem close_keeps_consistency ws st :
  consistent st →
  keys_unique st →
  (∀ meta ws', map_get ws (activeClients st) = Some meta →
               map_get ws' (activeClients st) = Some meta → ws' = ws) →
  consistent (onClose ws st).
Proof.
  intros Hc Hnd Hsole. unfold consistent, keys_unique in *.
  destruct (map_get ws (activeClients st)) as [meta|] eqn:Hget;
    [|unfold onClose; rewrite Hget, map_delete_absent by done; by destruct st].
  intros room u. rewrite (elem_of_members_onClose ws st meta) by done.
  assert (live (onClose ws st) room u ↔
          ∃ ws', ws' ≠ ws ∧ map_get ws' (activeClients st) = Some {| userId := u; roomId := room |})
    as ->.
  { unfold live. split.
    - intros [ws' Hget']. unfold onClose in Hget'. simpl in Hget'.
      rewrite map_get_delete in Hget' by done. case_decide; [done|eauto].
    - intros (ws' & Hne & Hget'). exists ws'. unfold onClose. simpl.
      rewrite map_get_delete by done. by rewrite decide_False. }
  rewrite (Hc room u). split.
  - intros [[ws' Hget'] Hnot]. exists ws'. split; [|done].
    intros ->. rewrite Hget in Hget'. injection Hget' as ->. by apply Hnot.
  - intros (ws' & Hne & Hget'). split; [by exists ws'|].
    intros [-> ->]. apply Hne, (Hsole meta); [done|by destruct meta].
Qed.

(** Users 1 and 2 are in [r1] on connections 1 and 2; connection 1
    closes. *)
Lemma close_keeps_consistency_witness : consistent (onClose 1 (run two_members)).
Proof.
  apply (close_keeps_consistency 1 (run two_members)).
  - apply two_members_consistent.
  - apply (bool_decide_unpack _). vm_compute. exact I.
  - intros meta ws' Hmeta Hother. vm_compute in Hmeta. injection Hmeta as <-.
    replace (activeClients (run two_members))
      with [(1, {| userId := int 1; roomId := "r1" |});
            (2, {| userId := int 2; roomId := "r1" |})] in Hother by (by vm_compute).
    simpl in Hother. repeat case_bool_decide; simplify_eq; done.
Defined.

(** ** The error paths of the message handler *)

(** X8. A frame that is not JSON is answered with the "Invalid JSON
    format" error, before anything else happens: no call to the store, no
    change to the maps, nothing to any other connection. *)
Theorem invalid_json_answered env st ws :
  let r := onMessage env ws None st in
  head (attempted (log r)) = Some (ws, ErrorFrame "Invalid JSON format")
  ∧ only_errors_to ws (attempted (log r))
  ∧ store_calls (log r) = []
  ∧ state_after r = st
  ∧ (sendThrows env ws = false → delivered (log r) = [(ws, ErrorFrame "Invalid JSON format")]).
Proof.
  unfold_handler. either_send env ws; split_and!; try done; by repeat constructor.
Qed.

(** X9. A message frame from a connection that never registered is
    answered with the "Client not registered" error; the store is not
    called and the maps are unchanged. *)
Theorem unregistered_sender_rejected env st ws parsed :
  is_message parsed →
  map_get ws (activeClients st) = None →
  let r := onMessage env ws (Some parsed) st in
  head (attempted (log r)) = Some (ws, ErrorFrame "Client not registered")
  ∧ only_errors_to ws (attempted (log r))
  ∧ store_calls (log r) = []
  ∧ state_after r = st
  ∧ (sendThrows env ws = false → delivered (log r) = [(ws, ErrorFrame "Client not registered")]).
Proof.
  intros Hty Hnone. frame_object Hty.
  unfold_handler. rewrite Hty0. simpl. rewrite Hnone.
  either_send env ws; split_and!; try done; by repeat constructor.
Qed.

Lemma unregistered_sender_rejected_witness :
  let r := onMessage sample_env 3
             (Some (message_frame "r1" (JNum (int 1)) (JStr "hi"))) (run two_members) in
  head (attempted (log r)) = Some (3, ErrorFrame "Client not registered")
  ∧ only_errors_to 3 (attempted (log r))
  ∧ store_calls (log r) = []
  ∧ state_after r = run two_members
  ∧ (sendThrows sample_env 3 = false →
     delivered (log r) = [(3, ErrorFrame "Client not registered")]).
Proof.
  apply (unregistered_sender_rejected sample_env (run two_members) 3
           (message_frame "r1" (JNum (int 1)) (JStr "hi"))).
  - reflexivity.
  - vm_compute. reflexivity.
Defined.

(** The register branch once the presence check is passed with a string
    for roomId. *)
Ltac register_past_check Hty Hroom Hr Huser :=
  frame_object Hty; simpl in *;
  match type of Hroom with
  | context [own_property "roomId" ?fields] =>
      let rid := fresh "rid" in
      let Hrid := fresh "Hrid" in
      destruct (own_property "roomId" fields) as [rid|] eqn:Hrid; [|done];
      simpl in *; subst rid
  end;
  unfold_handler;
  match goal with H : own_property "type" _ = Some _ |- _ => rewrite H end;
  simpl;
  match goal with H : own_property "roomId" _ = Some _ |- _ => rewrite H end;
  simpl; rewrite (bool_decide_eq_false_2 _ Hr), Huser; simpl.





(** ** A successful registration *)

Lemma authorized_is_a_number room n :
  isAuthorized room n = true → number_strict_eq n n = true.
Proof.
  unfold isAuthorized. intros (u & _ & Heq)%existsb_exists.
  unfold number_strict_eq in *. destruct (user_id u); [done| |];
    apply bool_decide_eq_true in Heq; subst; by rewrite bool_decide_eq_true_2.
Qed.

(** X12. A register request that passes the presence check, names an
    existing room and carries an authorized user id runs lines 71-76: the
    connection then holds exactly that Session and the user is in the set
    of the room. The one frame handed to the sender is register-success,
    and the registration stands even when that send throws. *)
Theorem register_success env st ws parsed r room :
  is_register parsed →
  field parsed "roomId" = JStr r →
  r ≠ "" →
  truthy (field parsed "userId") = true →
  findUnique env r = Resolved (Some room) →
  isAuthorized room (Number env (field parsed "userId")) = true →
  let n := Number env (field parsed "userId") in
  let res := onMessage env ws (Some parsed) st in
  state_after res = committed ws st n r
  ∧ map_get ws (activeClients (state_after res)) = Some {| userId := n; roomId := r |}
  ∧ n ∈ membersOf (state_after res) r
  ∧ attempted (log res) = [(ws, RegisterSuccess r n)]
  ∧ store_calls (log res) = [FindRoom (JStr r) false]
  ∧ escaped res = false.
Proof.
  intros Hty Hroom Hr Huser Hfind Hauth.
  assert (∀ n, map_get ws (activeClients (committed ws st n r))
               = Some {| userId := n; roomId := r |}) as Hsession.
  { intros n. unfold committed. simpl. rewrite map_get_set. by rewrite decide_True. }
  assert (∀ n, n ∈ membersOf (committed ws st n r) r) as Hmember.
  { intros n. unfold membersOf at 1. unfold committed. simpl. rewrite lookup_insert_eq. simpl.
    apply elem_of_union_l, elem_of_singleton_2. reflexivity. }
  register_past_check Hty Hroom Hr Huser.
  rewrite Hfind. simpl. rewrite Hauth. simpl.
  rewrite commit_registration_run. simpl.
  either_send env ws; split_and!; done.
Qed.

Lemma register_success_witness :
  let parsed := register_frame "r1" (JNum (int 2)) in
  let n := Number sample_env (field parsed "userId") in
  let res := onMessage sample_env 4 (Some parsed) (run one_member) in
  state_after res = committed 4 (run one_member) n "r1"
  ∧ map_get 4 (activeClients (state_after res)) = Some {| userId := n; roomId := "r1" |}
  ∧ n ∈ membersOf (state_after res) "r1"
  ∧ attempted (log res) = [(4, RegisterSuccess "r1" n)]
  ∧ store_calls (log res) = [FindRoom (JStr "r1") false]
  ∧ escaped res = false.
Proof.
  apply (register_success sample_env (run one_member) 4
           (register_frame "r1" (JNum (int 2))) "r1" room_r1);
    [reflexivity | reflexivity | discriminate | reflexivity | reflexivity | reflexivity].
Defined.

(** X13. Registering again with the same ids on the same connection
    changes nothing: the second run of lines 71-76 leaves the maps as the
    first left them. *)
Theorem register_twice_same env st ws parsed r room :
  is_register parsed →
  field parsed "roomId" = JStr r →
  r ≠ "" →
  truthy (field parsed "userId") = true →
  findUnique env r = Resolved (Some room) →
  isAuthorized room (Number env (field parsed "userId")) = true →
  let once := state_after (onMessage env ws (Some parsed) st) in
  state_after (onMessage env ws (Some parsed) once) = once.
Proof.
  intros Hty Hroom Hr Huser Hfind Hauth.
  assert (∀ s, state_after (onMessage env ws (Some parsed) s)
               = committed ws s (Number env (field parsed "userId")) r) as Hrun.
  { intros s. revert Hty Hroom Hr Huser Hfind Hauth. clear. intros Hty Hroom Hr Huser Hfind Hauth.
    register_past_check Hty Hroom Hr Huser.
    rewrite Hfind. simpl. rewrite Hauth. simpl.
    rewrite commit_registration_run. simpl.
    by either_send env ws. }
  cbv zeta. rewrite !Hrun.
  set (n := Number env (field parsed "userId")).
  unfold committed. simpl. f_equal.
  - generalize (activeClients st). intros m.
    induction m as [|[k v] rest IH]; simpl.
    + by rewrite bool_decide_eq_true_2.
    + case_bool_decide as Hk; simpl.
      * by rewrite bool_decide_eq_true_2.
      * rewrite bool_decide_eq_false_2 by done. by rewrite IH.
  - unfold membersOf. simpl. rewrite lookup_insert_eq. simpl.
    rewrite insert_insert_eq. f_equal.
    by rewrite (assoc_L (∪)), union_idemp_L.
Qed.

Lemma register_twice_same_witness :
  let parsed := register_frame "r1" (JNum (int 1)) in
  let once := state_after (onMessage sample_env 1 (Some parsed) initial) in
  state_after (onMessage sample_env 1 (Some parsed) once) = once.
Proof.
  apply (register_twice_same sample_env initial 1
           (register_frame "r1" (JNum (int 1))) "r1" room_r1);
    [reflexivity | reflexivity | discriminate | reflexivity | reflexivity | reflexivity].
Defined.

(** ** The room check of the relay *)

(** The message branch once the context check is passed. *)
Ltac relay_past_check Hty Hmeta Hroom Huser :=
  frame_object Hty; simpl in *;
  apply is_string_true in Hroom;
  match type of Hroom with
  | context [own_property "roomId" ?fields] =>
      let rid := fresh "rid" in
      let Hrid := fresh "Hrid" in
      destruct (own_property "roomId" fields) as [rid|] eqn:Hrid; [|done];
      simpl in *; subst rid
  end;
  unfold_handler;
  match goal with H : own_property "type" _ = Some _ |- _ => rewrite H end;
  simpl; rewrite Hmeta;
  match goal with H : own_property "roomId" _ = Some _ |- _ => rewrite H end;
  simpl; rewrite Huser; simpl;
  rewrite bool_decide_eq_true_2 by done; simpl.

(** X14. A message whose room has been deleted from the store since the
    registration is answered with the "Room not found" error: the chat is
    not created, nothing is broadcast, the maps are unchanged. *)
Theorem relay_room_not_found env st ws parsed meta :
  is_message parsed →
  map_get ws (activeClients st) = Some meta →
  is_string (field parsed "roomId") (roomId meta) = true →
  number_strict_eq (Number env (field parsed "user_id")) (userId meta) = true →
  findUnique env (roomId meta) = Resolved None →
  let r := onMessage env ws (Some parsed) st in
  head (attempted (log r)) = Some (ws, ErrorFrame "Room not found")
  ∧ only_errors_to ws (attempted (log r))
  ∧ store_calls (log r) = [FindRoom (JStr (roomId meta)) false]
  ∧ state_after r = st
  ∧ (sendThrows env ws = false → delivered (log r) = [(ws, ErrorFrame "Room not found")]).
Proof.
  intros Hty Hmeta Hroom Huser Hfind.
  relay_past_check Hty Hmeta Hroom Huser.
  rewrite Hfind. simpl.
  either_send env ws; split_and!; try done; by repeat constructor.
Qed.

Lemma relay_room_not_found_witness :
  let r := onMessage rooms_gone 1
             (Some (message_frame "r1" (JNum (int 1)) (JStr "hi"))) (run two_members) in
  head (attempted (log r)) = Some (1, ErrorFrame "Room not found")
  ∧ only_errors_to 1 (attempted (log r))
  ∧ store_calls (log r) = [FindRoom (JStr "r1") false]
  ∧ state_after r = run two_members
  ∧ (sendThrows rooms_gone 1 = false → delivered (log r) = [(1, ErrorFrame "Room not found")]).
Proof.
  apply (relay_room_not_found rooms_gone (run two_members) 1
           (message_frame "r1" (JNum (int 1)) (JStr "hi"))
           {| userId := int 1; roomId := "r1" |}).
  - reflexivity.
  - vm_compute. reflexivity.
  - reflexivity.
  - vm_compute. reflexivity.
  - reflexivity.
Defined.

(** X15. A message whose room lookup is rejected by the store is
    answered with the "Database error during room validation" error: the
    chat is not created, nothing is broadcast, the maps are unchanged. *)
Theorem relay_store_error env st ws parsed meta :
  is_message parsed →
  map_get ws (activeClients st) = Some meta →
  is_string (field parsed "roomId") (roomId meta) = true →
  number_strict_eq (Number env (field parsed "user_id")) (userId meta) = true →
  findUnique env (roomId meta) = Rejected →
  let r := onMessage env ws (Some parsed) st in
  head (attempted (log r)) = Some (ws, ErrorFrame "Database error during room validation")
  ∧ only_errors_to ws (attempted (log r))
  ∧ store_calls (log r) = [FindRoom (JStr (roomId meta)) true]
  ∧ state_after r = st
  ∧ (sendThrows env ws = false →
     delivered (log r) = [(ws, ErrorFrame "Database error during room validation")]).
Proof.
  intros Hty Hmeta Hroom Huser Hfind.
  relay_past_check Hty Hmeta Hroom Huser.
  rewrite Hfind. simpl.
  either_send env ws; split_and!; try done; by repeat constructor.
Qed.

Lemma relay_store_error_witness :
  let r := onMessage store_down 1
             (Some (message_frame "r1" (JNum (int 1)) (JStr "hi"))) (run two_members) in
  head (attempted (log r)) = Some (1, ErrorFrame "Database error during room validation")
  ∧ only_errors_to 1 (attempted (log r))
  ∧ store_calls (log r) = [FindRoom (JStr "r1") true]
  ∧ state_after r = run two_members
  ∧ (sendThrows store_down 1 = false →
     delivered (log r) = [(1, ErrorFrame "Database error during room validation")]).
Proof.
  apply (relay_store_error store_down (run two_members) 1
           (message_frame "r1" (JNum (int 1)) (JStr "hi"))
           {| userId := int 1; roomId := "r1" |}).
  - reflexivity.
  - vm_compute. reflexivity.
  - reflexivity.
  - vm_compute. reflexivity.
  - reflexivity.
Defined.

(** ** What a frame can change *)

(** X16. Only register frames write the maps: a frame that does not
    parse, or whose type is not "register", leaves both maps as they
    are, whatever the store and the sockets do. *)
Theorem only_register_writes env st ws data :
  (∀ parsed, data = Some parsed → is_string (field parsed "type") "register" = false) →
  state_after (onMessage env ws data st) = st.
Proof.
  intros Hnot.
  destruct data as [[| | | | | |fields]|];
    try (unfold_handler; by destruct (sendThrows env ws)).
  specialize (Hnot _ eq_refl). simpl in Hnot.
  unfold onMessage. cbv [JSON_parse get try_catch bind ret send emit throw]. simpl.
  rewrite Hnot. clear Hnot.
  destruct (is_string _ _); [|reflexivity].
  pose proof (relay_writes env ws fields st) as Hrel.
  destruct (relay env ws (JObj fields) st) as [[[[]| |] st'] l];
    unfold state_after in *; simpl in *; subst; try done.
  by destruct (sendThrows env ws).
Qed.

Lemma only_register_writes_witness :
  state_after (onMessage sample_env 1
                 (Some (message_frame "r1" (JNum (int 1)) (JStr "hi"))) (run two_members))
  = run two_members.
Proof.
  apply (only_register_writes sample_env (run two_members) 1).
  intros parsed [= <-]. reflexivity.
Defined.

(** X17. A frame changes the Session of no connection but the one it
    came on. *)
Theorem frame_touches_only_sender env st ws ws' data :
  ws' ≠ ws →
  map_get ws' (activeClients (state_after (onMessage env ws data st)))
  = map_get ws' (activeClients st).
Proof.
  intros Hne.
  destruct (onMessage_writes env ws data st) as [->|(u & room & ->)]; [done|].
  unfold committed. simpl. rewrite map_get_set. by rewrite decide_False.
Qed.

Lemma frame_touches_only_sender_witness :
  map_get 1 (activeClients (state_after (onMessage sample_env 2
                 (Some (register_frame "r1" (JNum (int 2)))) (run one_member))))
  = map_get 1 (activeClients (run one_member)).
Proof.
  apply (frame_touches_only_sender sample_env (run one_member) 2 1). discriminate.
Defined.

(** X18. No frame takes a user out of the Room Index or a room out of
    it: the sets only grow under [onMessage]. *)
Theorem frames_only_add_members env ws data st room :
  membersOf st room ⊆ membersOf (state_after (onMessage env ws data st)) room
  ∧ (is_Some (roomUserMap st !! room) →
     is_Some (roomUserMap (state_after (onMessage env ws data st)) !! room)).
Proof.
  destruct (onMessage_writes env ws data st) as [->|(u & room' & ->)]; [done|].
  unfold membersOf at 2. unfold committed. simpl.
  destruct (decide (room' = room)) as [->|Hne].
  - rewrite lookup_insert_eq. simpl. split; [apply union_subseteq_r|eauto].
  - by rewrite lookup_insert_ne.
Qed.

(** ** Register, then send *)

(** X19. A connection that has just registered can send: a message
    frame that repeats the roomId and the user id of the register frame
    passes the registration and context checks, and the handler goes on to
    the room lookup. *)
Theorem registered_can_send env st ws parsed msg r room :
  is_register parsed →
  field parsed "roomId" = JStr r →
  r ≠ "" →
  truthy (field parsed "userId") = true →
  findUnique env r = Resolved (Some room) →
  isAuthorized room (Number env (field parsed "userId")) = true →
  is_message msg →
  field msg "roomId" = JStr r →
  field msg "user_id" = field parsed "userId" →
  let registered := state_after (onMessage env ws (Some parsed) st) in
  head (log (onMessage env ws (Some msg) registered)) = Some (FindRoom (JStr r) false).
Proof.
  intros Hty Hroom Hr Huser Hfind Hauth Hmsg Hmroom Hmuser.
  assert (state_after (onMessage env ws (Some parsed) st)
          = committed ws st (Number env (field parsed "userId")) r) as Hrun.
  { revert Hty Hroom Hr Huser Hfind Hauth. clear. intros Hty Hroom Hr Huser Hfind Hauth.
    register_past_check Hty Hroom Hr Huser.
    rewrite Hfind. simpl. rewrite Hauth. simpl.
    rewrite commit_registration_run. simpl.
    by either_send env ws. }
  cbv zeta. rewrite Hrun. clear Hrun.
  apply authorized_is_a_number in Hauth. rewrite <- Hmuser in Hauth |- *.
  clear Hty Hroom Huser Hmuser.
  frame_object Hmsg. simpl in *.
  destruct (own_property "roomId" fields) as [rid|] eqn:Hrid; [|done].
  simpl in *. subst rid.
  unfold_handler. rewrite Hty. simpl.
  rewrite map_get_set, decide_True by done. rewrite Hrid. simpl.
  rewrite bool_decide_eq_true_2 by done. rewrite Hauth. simpl.
  rewrite Hfind. simpl.
  repeat (case_match; simplify_eq/=); done.
Qed.

Lemma registered_can_send_witness :
  let registered :=
    state_after (onMessage sample_env 1 (Some (register_frame "r1" (JNum (int 1)))) initial) in
  head (log (onMessage sample_env 1
               (Some (message_frame "r1" (JNum (int 1)) (JStr "hi"))) registered))
  = Some (FindRoom (JStr "r1") false).
Proof.
  apply (registered_can_send sample_env initial 1
           (register_frame "r1" (JNum (int 1)))
           (message_frame "r1" (JNum (int 1)) (JStr "hi")) "r1" room_r1);
    [reflexivity | reflexivity | discriminate | reflexivity | reflexivity | reflexivity
    | reflexivity | reflexivity | reflexivity].
Defined.

(** ** The earlier handler *)

Ltac unfold_earlier :=
  cbv [Earlier.onMessage Earlier.relay Earlier.register prisma_findUnique prisma_create
       rooms_get try_catch bind get JSON_parse ret get_state put_state send emit throw return_
       state_after log completion escaped];
  simpl.

(** X20. In the earlier handler a register frame that fails the presence
    check is dropped: no reply, no call to the store, no change. *)
Theorem earlier_presence_check_silent env st ws parsed :
  is_register parsed →
  truthy (field parsed "roomId") && truthy (field parsed "userId") = false →
  Earlier.onMessage env ws (Some parsed) st = (Return, st, []).
Proof.
  intros Hty Hfalsy. frame_object Hty. simpl in Hfalsy.
  assert (negb (truthy (default JUndefined (own_property "roomId" fields)))
          || negb (truthy (default JUndefined (own_property "userId" fields))) = true) as Hor.
  { rewrite <- negb_andb. by rewrite Hfalsy. }
  unfold_earlier. rewrite Hty0. simpl. by rewrite Hor.
Qed.

Lemma earlier_presence_check_silent_witness :
  Earlier.onMessage sample_env 1 (Some (register_frame "r1" (JNum (int 0)))) initial
  = (Return, initial, []).
Proof.
  apply (earlier_presence_check_silent sample_env initial 1
           (register_frame "r1" (JNum (int 0)))); reflexivity.
Defined.





(** X27. In the earlier handler a frame that is not JSON ends in the
    outer catch as well: the one frame handed to the sender is the
    "Server error" error, and the exception leaves the handler exactly
    when that send throws. *)
Theorem earlier_invalid_json env st ws :
  let r := Earlier.onMessage env ws None st in
  attempted (log r) = [(ws, ErrorFrame "Server error")]
  ∧ store_calls (log r) = []
  ∧ state_after r = st
  ∧ escaped r = sendThrows env ws.
Proof. unfold_earlier. by either_send env ws. Qed.

(** The loop of the earlier handler stops at the first recipient whose
    send throws. *)
Lemma earlier_fanout_run env ws roomIdV recipients chat entries st :
  ∃ l, Earlier.fanout env ws roomIdV recipients chat entries st
       = (if existsb (λ e, sendThrows env e.1)
               (until_throw env (filter (fanout_test env ws roomIdV recipients) entries))
          then Throw else Normal (), st, l)
    ∧ attempted l
      = (λ e, (e.1, NewMessage chat))
          <$> until_throw env (filter (fanout_test env ws roomIdV recipients) entries)
    ∧ delivered l
      = (λ e, (e.1, NewMessage chat))
          <$> filter (λ e, sendThrows env e.1 = false)
                (until_throw env (filter (fanout_test env ws roomIdV recipients) entries))
    ∧ store_calls l = [].
Proof.
  induction entries as [|[client meta] rest (l & Hrun & Hatt & Hdel & Hdb)].
  - by exists [].
  - cbn [Earlier.fanout]. unfold bind at 1.
    destruct (negb (bool_decide (client = ws)) && is_string roomIdV (roomId meta)
              && bool_decide (userId meta ∈ recipients)
              && bool_decide (readyState env client = OPEN)) eqn:Htest.
    + apply fanout_test_true in Htest.
      rewrite filter_cons, decide_True by done.
      cbn [until_throw fst]. cbv [send bind emit throw].
      destruct (sendThrows env client) eqn:Hs.
      * exists [SendFailed client (NewMessage chat)]. split_and!.
        -- simpl. by rewrite Hs.
        -- done.
        -- rewrite filter_cons, decide_False by (simpl; congruence). done.
        -- done.
      * rewrite Hrun. exists (Sent client (NewMessage chat) :: l). split_and!.
        -- simpl. by rewrite Hs.
        -- simpl. f_equal. exact Hatt.
        -- rewrite filter_cons, decide_True by (simpl; congruence). simpl. f_equal. exact Hdel.
        -- done.
    + rewrite filter_cons, decide_False by (rewrite <- fanout_test_true; congruence).
      cbv [ret]. rewrite Hrun. by exists l.
Qed.

(** X23. In the earlier handler no exception leaves the handler as long
    as the socket of the sender accepts a frame: whatever else fails ends
    in the "Server error" reply. *)
Theorem earlier_escapes_only_when_sender_throws env st ws data :
  escaped (Earlier.onMessage env ws data st) = true → sendThrows env ws = true.
Proof.
  unfold Earlier.onMessage, try_catch, escaped, completion.
  match goal with |- context [match ?b st with _ => _ end] => destruct (b st) as [[[[]| |] st'] l] end;
    simpl; try done.
  cbv [send emit throw bind]. by destruct (sendThrows env ws).
Qed.

Lemma earlier_escapes_only_when_sender_throws_witness : sendThrows broken_sockets 1 = true.
Proof.
  apply (earlier_escapes_only_when_sender_throws broken_sockets initial 1 None).
  vm_compute. reflexivity.
Defined.

(** X24. In the earlier handler the fan-out stops at the first eligible
    recipient whose send throws: the recipients after it in the map get
    nothing, and the sender, already acknowledged, is handed the "Server
    error" reply as well. Without such a recipient every eligible one is
    reached and the sender gets the acknowledgment alone. *)
Theorem earlier_broadcast_stops_at_failure env st ws parsed meta room chat :
  is_message parsed →
  map_get ws (activeClients st) = Some meta →
  is_string (field parsed "roomId") (roomId meta) = true →
  number_strict_eq (Number env (field parsed "user_id")) (userId meta) = true →
  findUnique env (roomId meta) = Resolved (Some room) →
  create env (chat_request env parsed) = Resolved chat →
  sendThrows env ws = false →
  let r := Earlier.onMessage env ws (Some parsed) st in
  let reached :=
    until_throw env (filter (eligible env st ws (roomId meta)) (activeClients st)) in
  attempted (log r)
  = (ws, MessageSent chat)
      :: ((λ e, (e.1, NewMessage chat)) <$> reached)
      ++ (if existsb (λ e, sendThrows env e.1) reached
          then [(ws, ErrorFrame "Server error")] else [])
  ∧ state_after r = st
  ∧ escaped r = false.
Proof.
  intros Hty Hmeta Hroom Huser Hfind Hcreate Hs.
  frame_object Hty. unfold chat_request in *. simpl in *.
  apply is_string_true in Hroom.
  destruct (own_property "roomId" fields) as [rid|] eqn:Hrid; [|done].
  simpl in *. subst rid.
  unfold_earlier. rewrite Hty0. simpl. rewrite Hmeta, Hrid. simpl. rewrite Huser. simpl.
  rewrite bool_decide_eq_true_2 by done. simpl.
  rewrite Hfind, Hcreate, Hs. simpl.
  destruct (roomUserMap st !! roomId meta) as [recipients|] eqn:Hrec.
  - destruct (earlier_fanout_run env ws (JStr (roomId meta)) recipients chat
                (activeClients st) st) as (lf & Hrun & Hatt & _ & _).
    rewrite (list_filter_iff _ (eligible env st ws (roomId meta)) (activeClients st))
      in Hrun, Hatt by (intros e; by apply eligible_fanout_test).
    rewrite Hrun.
    destruct (existsb _ _); simpl; rewrite ?Hs; simpl.
    + unfold attempted in *. rewrite omap_app. simpl. by rewrite Hatt.
    + rewrite app_nil_r. by rewrite Hatt.
  - rewrite nobody_eligible by done. done.
Qed.

(** Connections 1, 2 and 3 are in [r1]; the socket of connection 2
    throws; connection 1 sends. *)
Lemma earlier_broadcast_stops_at_failure_witness :
  let parsed := message_frame "r1" (JNum (int 1)) (JStr "hi") in
  let chat := {| chat_id := 7; chat_row := chat_request second_socket_broken parsed |} in
  let st := run three_members in
  let r := Earlier.onMessage second_socket_broken 1 (Some parsed) st in
  let reached :=
    until_throw second_socket_broken
      (filter (eligible second_socket_broken st 1 "r1") (activeClients st)) in
  attempted (log r)
  = (1, MessageSent chat)
      :: ((λ e, (e.1, NewMessage chat)) <$> reached)
      ++ (if existsb (λ e, sendThrows second_socket_broken e.1) reached
          then [(1, ErrorFrame "Server error")] else [])
  ∧ state_after r = st
  ∧ escaped r = false.
Proof.
  apply (earlier_broadcast_stops_at_failure second_socket_broken (run three_members) 1
           (message_frame "r1" (JNum (int 1)) (JStr "hi"))
           {| userId := int 1; roomId := "r1" |} room_r1).
  - reflexivity.
  - vm_compute. reflexivity.
  - reflexivity.
  - vm_compute. reflexivity.
  - reflexivity.
  - reflexivity.
  - reflexivity.
Defined.

(** In that run connection 3 is eligible and is not reached; the current
    handler reaches it. *)
Example broken_recipient_then_and_now :
  let parsed := message_frame "r1" (JNum (int 1)) (JStr "hi") in
  let st := run three_members in
  new_message_recipients
    (attempted (log (Earlier.onMessage second_socket_broken 1 (Some parsed) st))) = [2]
  ∧ new_message_recipients
      (attempted (log (onMessage second_socket_broken 1 (Some parsed) st))) = [2; 3].
Proof. cbv zeta. split; by vm_compute. Qed.

(** ** The compiled handler *)

Ltac unfold_compiled :=
  cbv [Compiled.onMessage Compiled.relay Compiled.register
       Earlier.onMessage Earlier.relay Earlier.register
       prisma_findUnique prisma_create
       rooms_get try_catch bind get JSON_parse ret get_state put_state send emit throw return_
       state_after log completion escaped];
  simpl.

(** X25. The compiled handler never registers a user id that is not a
    JSON number (a numeric string, say): whatever the store answers, the
    maps are unchanged and every frame handed out is an error frame to
    the sender. *)
Theorem compiled_ids_are_not_coerced env st ws parsed :
  is_register parsed →
  (∀ n, field parsed "userId" ≠ JNum n) →
  let r := Compiled.onMessage env ws (Some parsed) st in
  state_after r = st ∧ only_errors_to ws (attempted (log r)).
Proof.
  intros Hty Hnum. frame_object Hty. simpl in Hnum.
  unfold_compiled. rewrite Hty0. simpl.
  destruct (default JUndefined (own_property "userId" fields)) as [| | | n | | |] eqn:Hu;
    try (by destruct (Hnum n)).
  all: repeat (case_match; simplify_eq/=); split; try done; by repeat constructor.
Qed.

Lemma compiled_ids_are_not_coerced_witness :
  let r := Compiled.onMessage sample_env 1 (Some (register_frame "r1" (JStr "1"))) initial in
  state_after r = initial ∧ only_errors_to 1 (attempted (log r)).
Proof.
  apply (compiled_ids_are_not_coerced sample_env initial 1 (register_frame "r1" (JStr "1"))).
  - reflexivity.
  - intros n. vm_compute. discriminate.
Defined.

(** X26. On frames whose ids are JSON numbers and pass the presence
    check, the compiled handler and the earlier handler do the same
    thing: same completion, same maps, same log. So do they on frames
    that do not parse and on frames of any other type. *)
Theorem compiled_agrees_with_earlier env st ws data :
  (∀ parsed, data = Some parsed → numeric_ids parsed) →
  Compiled.onMessage env ws data st = Earlier.onMessage env ws data st.
Proof.
  intros Hnum.
  destruct data as [[| | | | | |fields]|]; try reflexivity.
  destruct (Hnum _ eq_refl) as [Hreg Hmsg]. clear Hnum.
  unfold is_register, is_message in *. simpl in *.
  unfold Compiled.onMessage, Earlier.onMessage.
  cbv [JSON_parse get try_catch bind ret]. simpl.
  destruct (is_string (default JUndefined (own_property "type" fields)) "register") eqn:Hty.
  - destruct (Hreg eq_refl) as (Hroom & n & Hn & Hnz). clear Hreg Hmsg.
    assert (Compiled.register env ws (JObj fields) st = Earlier.register env ws (JObj fields) st)
      as ->.
    2: { apply is_string_true in Hty. rewrite Hty. simpl.
         by destruct (Earlier.register env ws (JObj fields) st) as [[[[]| |] st'] l]. }
    cbv [Compiled.register Earlier.register get bind ret]. simpl.
    rewrite Hn, Hroom. simpl. rewrite Hnz. simpl.
    unfold isAuthorized. simpl.
    destruct (prisma_findUnique env (default JUndefined (own_property "roomId" fields)) st)
      as [[[room| |] st'] l] eqn:Hfind; try done.
  - clear Hreg.
    destruct (is_string (default JUndefined (own_property "type" fields)) "message") eqn:Hty';
      [|done].
    destruct (Hmsg eq_refl) as (n & Hn). clear Hmsg.
    assert (Compiled.relay env ws (JObj fields) st = Earlier.relay env ws (JObj fields) st)
      as ->; [|done].
    cbv [Compiled.relay Earlier.relay get bind ret get_state]. simpl.
    destruct (map_get ws (activeClients st)) as [meta|]; [|done].
    rewrite Hn. simpl.
    replace (number_strict_eq (userId meta) n) with (number_strict_eq n (userId meta)); [done|].
    unfold number_strict_eq. destruct n, (userId meta); try done;
      apply bool_decide_ext; split; congruence.
Qed.

Lemma compiled_agrees_with_earlier_witness :
  Compiled.onMessage sample_env 1 (Some (register_frame "r1" (JNum (int 1)))) initial
  = Earlier.onMessage sample_env 1 (Some (register_frame "r1" (JNum (int 1)))) initial.
Proof.
  apply (compiled_agrees_with_earlier sample_env initial 1).
  intros parsed [= <-]. split.
  - intros _. split; [reflexivity|]. exists (int 1). split; reflexivity.
  - intros Hmsg. vm_compute in Hmsg. discriminate.
Defined.
